(** * voice-ai-app: job orchestration, storage, billing

    A shallow embedding of the Python services of the repository:
    - [shared/models.py] and [shared/utils.py] (records, identifiers),
    - the storage service ([upload_audio], [download_audio]),
    - the user-management service ([get_account_status],
      [update_user_minutes]),
    - the payment service ([debit_minutes]),
    - the three worker services,
    - the orchestrator ([process_audio], [_process_audio_in_background],
      [get_job_status], [download_audio]).

    Python dictionaries are finite maps, [Optional[str]] is [option string],
    unbounded Python integers are [Z].  An HTTP handler is a function from the
    state of its service to a new state and a response; a handler that raises
    [HTTPException(status_code=c, detail=d)] answers with status [c].  A call
    through [httpx] either raises a transport exception or returns the
    response of the handler; [raise_for_status] turns every non-2xx response
    into [HTTPStatusError].  Request binding is taken as the call sites intend
    it: a handler receives the values the caller put in the request under the
    parameter names of the handler. *)

From Stdlib Require Import ZArith NArith Lia ZifyNat Ascii.
From stdpp Require Import base strings gmap list pretty.

Local Open Scope string_scope.
Local Open Scope Z_scope.
Local Open Scope list_scope.

(** ** Python values *)

Module Py.

(** A value of type [Any] as it occurs in request parameters and job metadata. *)
Inductive Any :=
| ANone
| AStr (s : string)
| AInt (z : Z)
| ABool (b : bool).

#[global] Instance Any_eq_dec : EqDecision Any.
Proof. solve_decision. Defined.

(** Truth value testing. *)
Definition truthy_str (s : string) : bool :=
  match s with "" => false | _ => true end.

Definition truthy_opt (o : option string) : bool :=
  match o with None => false | Some s => truthy_str s end.

Definition truthy (a : Any) : bool :=
  match a with
  | ANone => false
  | AStr s => truthy_str s
  | AInt z => negb (z =? 0)
  | ABool b => b
  end.

(** [str(a)], as used by f-strings. *)
Definition str (a : Any) : string :=
  match a with
  | ANone => "None"
  | AStr s => s
  | AInt z => pretty z
  | ABool true => "True"
  | ABool false => "False"
  end.

Definition str_opt (o : option string) : string :=
  match o with None => "None" | Some s => s end.

(** [o or d] for an optional string. *)
Definition or_else (o : option string) (d : string) : string :=
  match o with
  | Some s => if truthy_str s then s else d
  | None => d
  end.

Definition of_opt (o : option string) : Any :=
  match o with None => ANone | Some s => AStr s end.

End Py.

(** ** [posixpath]: the path functions the storage service calls *)

Module PosixPath.

Definition sep : ascii := "/"%char.

Definition startswith (p s : string) : bool := String.prefix p s.

Fixpoint endswith_sep (s : string) : bool :=
  match s with
  | "" => false
  | String c "" => bool_decide (c = sep)
  | String _ r => endswith_sep r
  end.

Definition isabs (s : string) : bool := startswith "/" s.

(** [os.path.join(a, b)] *)
Definition join (a b : string) : string :=
  if startswith "/" b then b
  else if negb (Py.truthy_str a) || endswith_sep a then a +:+ b
  else a +:+ "/" +:+ b.

(** [s.split('/')]; [cur] holds the letters of the current component in
    reverse. *)
Fixpoint split_go (s : string) (cur : string) : list string :=
  match s with
  | "" => [String.rev cur]
  | String c r =>
      if bool_decide (c = sep) then String.rev cur :: split_go r ""
      else split_go r (String c cur)
  end.

Definition split (s : string) : list string := split_go s "".

Fixpoint join_sep (l : list string) : string :=
  match l with
  | [] => ""
  | [x] => x
  | x :: r => x +:+ "/" +:+ join_sep r
  end.

(** The loop of [normpath]; [new_comps] is kept with its last element first. *)
Fixpoint norm_comps (initial_slashes : nat) (comps : list string)
    (new_comps : list string) : list string :=
  match comps with
  | [] => rev new_comps
  | comp :: rest =>
      if bool_decide (comp = "") || bool_decide (comp = ".") then
        norm_comps initial_slashes rest new_comps
      else if negb (bool_decide (comp = ".."))
              || (bool_decide (initial_slashes = 0%nat)
                    && bool_decide (new_comps = []))
              || (match new_comps with l :: _ => bool_decide (l = "..") | [] => false end)
      then norm_comps initial_slashes rest (comp :: new_comps)
      else norm_comps initial_slashes rest (tail new_comps)
  end.

Fixpoint slashes (n : nat) : string :=
  match n with O => "" | S k => String sep (slashes k) end.

(** [os.path.normpath(path)] *)
Definition normpath (path : string) : string :=
  if negb (Py.truthy_str path) then "."
  else
    let initial_slashes :=
      if startswith "/" path then
        if startswith "//" path && negb (startswith "///" path) then 2%nat
        else 1%nat
      else 0%nat in
    let p := slashes initial_slashes
             +:+ join_sep (norm_comps initial_slashes (split path) []) in
    if Py.truthy_str p then p else ".".

(** [os.path.abspath(path)] in a process whose working directory is [cwd]. *)
Definition abspath (cwd path : string) : string :=
  normpath (if isabs path then path else join cwd path).

End PosixPath.

(** ** [base64]: the codec the storage service calls

    [b64encode] is the standard encoding with padding.  [b64decode] follows
    [binascii.a2b_base64] in its default mode: characters outside the alphabet
    are skipped, a pad sequence that completes a quad ends the input, and a
    trailing incomplete quad raises [binascii.Error] (here [None]).  Sextets
    are combined with the arithmetic form of the shifts and masks. *)

Module Base64.

Definition alphabet : list ascii :=
  String.list_ascii_of_string
    "ABCDEFGHIJKLMNOPQRSTUVWXYZabcdefghijklmnopqrstuvwxyz0123456789+/".

Definition pad : ascii := "="%char.

Definition enc_char (n : nat) : ascii := nth n alphabet pad.

Fixpoint index_of (c : ascii) (l : list ascii) (i : nat) : option nat :=
  match l with
  | [] => None
  | x :: r => if bool_decide (x = c) then Some i else index_of c r (S i)
  end.

Definition dec_char (c : ascii) : option nat := index_of c alphabet 0%nat.

Definition byte_of (n : nat) : Byte.byte :=
  default Byte.x00 (Byte.of_nat n).

Definition quad (c1 c2 c3 c4 : ascii) (rest : string) : string :=
  String c1 (String c2 (String c3 (String c4 rest))).

Fixpoint b64encode (bs : list Byte.byte) : string :=
  match bs with
  | [] => ""
  | [a] =>
      let a := Byte.to_nat a in
      quad (enc_char (a / 4)) (enc_char (a mod 4 * 16)) pad pad ""
  | [a; b] =>
      let a := Byte.to_nat a in
      let b := Byte.to_nat b in
      quad (enc_char (a / 4)) (enc_char (a mod 4 * 16 + b / 16))
           (enc_char (b mod 16 * 4)) pad ""
  | a :: b :: c :: rest =>
      let a := Byte.to_nat a in
      let b := Byte.to_nat b in
      let c := Byte.to_nat c in
      quad (enc_char (a / 4)) (enc_char (a mod 4 * 16 + b / 16))
           (enc_char (b mod 16 * 4 + c / 64)) (enc_char (c mod 64))
           (b64encode rest)
  end.

(** The decoding loop: [quad_pos] is the position in the current quad,
    [leftchar] the bits left over from the previous sextet, [pads] the number
    of pad characters seen since the last sextet, [out] the bytes produced so
    far, last first. *)
Fixpoint a2b (s : string) (quad_pos leftchar pads : nat)
    (out : list Byte.byte) : option (list Byte.byte) :=
  match s with
  | "" => if bool_decide (quad_pos = 0%nat) then Some (rev out) else None
  | String ch r =>
      if bool_decide (ch = pad) then
        if (2 <=? quad_pos)%nat then
          if (4 <=? quad_pos + S pads)%nat then Some (rev out)
          else a2b r quad_pos leftchar (S pads) out
        else a2b r quad_pos leftchar pads out
      else
        match dec_char ch with
        | None => a2b r quad_pos leftchar pads out
        | Some v =>
            match quad_pos with
            | 0%nat => a2b r 1%nat v 0%nat out
            | 1%nat =>
                a2b r 2%nat (v mod 16)%nat 0%nat
                    (byte_of (leftchar * 4 + v / 16) :: out)
            | 2%nat =>
                a2b r 3%nat (v mod 4)%nat 0%nat
                    (byte_of (leftchar * 16 + v / 4) :: out)
            | _ =>
                a2b r 0%nat 0%nat 0%nat (byte_of (leftchar * 64 + v) :: out)
            end
        end
  end.

Definition b64decode (s : string) : option (list Byte.byte) :=
  a2b s 0%nat 0%nat 0%nat [].

End Base64.

(** ** [shared/models.py] *)

Module User.
Record t := mk {
  id : string;
  username : string;
  email : string;
  password : string;
  role : string;
  paid_status : bool;
  minutes_remaining : Z
}.
Definition set_minutes_remaining (m : Z) (u : t) : t :=
  mk (id u) (username u) (email u) (password u) (role u) (paid_status u) m.
Definition set_paid_status (b : bool) (u : t) : t :=
  mk (id u) (username u) (email u) (password u) (role u) b
     (minutes_remaining u).
End User.

Module AudioJob.
Record t := mk {
  job_id : string;
  user_id : string;
  input_audio_path : option string;
  output_audio_path : option string;
  requested_capability : string;
  chosen_model : string;
  status : string;
  metadata : gmap string Py.Any
}.
Definition set_status (s : string) (j : t) : t :=
  mk (job_id j) (user_id j) (input_audio_path j) (output_audio_path j)
     (requested_capability j) (chosen_model j) s (metadata j).
Definition set_metadata (k : string) (v : Py.Any) (j : t) : t :=
  mk (job_id j) (user_id j) (input_audio_path j) (output_audio_path j)
     (requested_capability j) (chosen_model j) (status j)
     (<[k := v]> (metadata j)).
Definition set_input_audio_path (p : string) (j : t) : t :=
  mk (job_id j) (user_id j) (Some p) (output_audio_path j)
     (requested_capability j) (chosen_model j) (status j) (metadata j).
Definition set_output_audio_path (p : string) (j : t) : t :=
  mk (job_id j) (user_id j) (input_audio_path j) (Some p)
     (requested_capability j) (chosen_model j) (status j) (metadata j).
End AudioJob.

Module Notification.
Record t := mk {
  user_id : string;
  message : string;
  notification_type : string
}.
End Notification.

Module AudioProcessRequest.
Record t := mk {
  user_id : string;
  input_audio_b64 : option string;
  input_text : option string;
  capability : string;
  model_name : string;
  parameters : option (gmap string Py.Any)
}.
End AudioProcessRequest.

Module AudioProcessResponse.
Record t := mk {
  job_id : string;
  status : string;
  output_audio_b64 : option string;
  output_text : option string;
  message : option string
}.
End AudioProcessResponse.

Module UserRegister.
Record t := mk {
  username : string;
  email : string;
  password : string
}.
End UserRegister.

Module PaymentStatusUpdate.
Record t := mk {
  transaction_id : string;
  status : string;
  user_id : string;
  minutes_added : option Z
}.
End PaymentStatusUpdate.

(** ** HTTP: handlers, responses, calls *)

Module Http.

(** [HTTPException(status_code, detail)] *)
Record HTTPException := mkExc { status_code : Z; detail : string }.

Definition dq : string := String (ascii_of_nat 34) "".

(** The body of the response a raised [HTTPException] produces (characters
    of the detail that JSON escapes are left as they are). *)
Definition error_text (d : string) : string :=
  "{" +:+ dq +:+ "detail" +:+ dq +:+ ":" +:+ dq +:+ d +:+ dq +:+ "}".

(** What a handler answers: its return value with status 200, or the status
    and body of the exception it raised. *)
Inductive Response (A : Type) :=
| Ok200 (body : A)
| ErrStatus (code : Z) (text : string).
Arguments Ok200 {A} body.
Arguments ErrStatus {A} code text.

Definition raise {A} (e : HTTPException) : Response A :=
  ErrStatus (status_code e) (error_text (detail e)).

(** What the caller of [client.get]/[client.post] sees: a response, or a
    transport exception with its text. *)
Inductive Outcome (A : Type) :=
| Returned (r : Response A)
| Raised (e : string).
Arguments Returned {A} r.
Arguments Raised {A} e.

(** What happens to one request on the network: it is served; it never
    reaches the handler; or the handler runs and its answer is lost. *)
Inductive Fault :=
| NoFault
| ConnectError (e : string)
| ReadError (e : string).

Definition call {S A : Type} (f : Fault) (handler : S → S * Response A)
    (s : S) : S * Outcome A :=
  match f with
  | NoFault => let '(s', r) := handler s in (s', Returned r)
  | ConnectError e => (s, Raised e)
  | ReadError e => (fst (handler s), Raised e)
  end.

End Http.

(** ** The file system of a container

    Files and directories are keyed by their canonical absolute path.  A path
    is resolved component by component from the root (there are no symbolic
    links): every component that is stepped through, [..] included, must be a
    directory. *)

Module Fs.

Record t := mk {
  files : gmap string (list Byte.byte);
  dirs : gset string;
  cwd : string
}.

(** The absolute path of a stack of components (last component first). *)
Definition path_of (stack : list string) : string :=
  "/" +:+ PosixPath.join_sep (rev stack).

Definition is_dir (fs : t) (p : string) : bool :=
  bool_decide (p = "/") || bool_decide (p ∈ dirs fs).

Fixpoint walk (fs : t) (comps : list string) (stack : list string)
    : option string :=
  match comps with
  | [] => Some (path_of stack)
  | c :: rest =>
      if bool_decide (c = "") || bool_decide (c = ".") then walk fs rest stack
      else if is_dir fs (path_of stack) then
        if bool_decide (c = "..") then walk fs rest (tail stack)
        else walk fs rest (c :: stack)
      else None
  end.

Definition resolve (fs : t) (p : string) : option string :=
  walk fs
    (PosixPath.split (if PosixPath.isabs p then p else PosixPath.join (cwd fs) p))
    [].

(** [os.path.exists(p)] *)
Definition exists_ (fs : t) (p : string) : bool :=
  match resolve fs p with
  | Some c => bool_decide (is_Some (files fs !! c)) || is_dir fs c
  | None => false
  end.

(** [open(p, "rb").read()]; [None] when [open] raises. *)
Definition read (fs : t) (p : string) : option (list Byte.byte) :=
  match resolve fs p with
  | Some c => if is_dir fs c then None else files fs !! c
  | None => None
  end.

(** [open(p, "wb").write(bs)]; [None] when [open] raises. *)
Definition write (fs : t) (p : string) (bs : list Byte.byte) : option t :=
  match resolve fs p with
  | Some c =>
      if is_dir fs c then None
      else Some (mk (<[c := bs]> (files fs)) (dirs fs) (cwd fs))
  | None => None
  end.

(** [os.remove(p)]; [None] when it raises. *)
Definition remove (fs : t) (p : string) : option t :=
  match resolve fs p with
  | Some c =>
      if is_dir fs c then None
      else
        match files fs !! c with
        | Some _ => Some (mk (delete c (files fs)) (dirs fs) (cwd fs))
        | None => None
        end
  | None => None
  end.

End Fs.

(** ** [services/storage-service] *)

Module Storage.
Import Http.

Definition STORAGE_DIR : string := "/app/data".

Record UploadBody := mkUpload { up_message : string; file_path : string }.
Record DownloadBody := mkDownload { audio_b64 : string }.

(** [upload_audio(user_id, audio_b64, file_name)]; [uid] is what
    [generate_unique_id()] returns when it is called.  The two failures of
    the [try] block are a [binascii.Error] of [b64decode] and an [OSError] of
    [open]; the text of the library exception in the detail is abridged. *)
Definition upload_audio (user_id audio_b64 : string)
    (file_name : option string) (uid : string) (fs : Fs.t)
    : Fs.t * Response UploadBody :=
  let file_name :=
    if Py.truthy_opt file_name then Py.str_opt file_name
    else "audio_" +:+ user_id +:+ "_" +:+ uid +:+ ".wav" in
  let file_path := PosixPath.join STORAGE_DIR file_name in
  match Base64.b64decode audio_b64 with
  | None =>
      (fs, raise (mkExc 500 "Failed to upload audio: Incorrect padding"))
  | Some audio_bytes =>
      match Fs.write fs file_path audio_bytes with
      | None =>
          (fs, raise (mkExc 500 ("Failed to upload audio: cannot open "
                                   +:+ file_path)))
      | Some fs' =>
          (fs', Ok200 (mkUpload "Audio uploaded successfully (dummy)"
                                file_path))
      end
  end.

(** The traversal check of [download_audio] and [delete_audio]. *)
Definition traversal_check (fs : Fs.t) (full_path : string) : bool :=
  PosixPath.startswith (PosixPath.abspath (Fs.cwd fs) STORAGE_DIR)
                       (PosixPath.abspath (Fs.cwd fs) full_path).

(** [download_audio(file_path, user_id)] *)
Definition download_audio (file_path user_id : string) (fs : Fs.t)
    : Fs.t * Response DownloadBody :=
  let full_path := PosixPath.join STORAGE_DIR file_path in
  if negb (traversal_check fs full_path) then
    (fs, raise (mkExc 400 "Invalid file path."))
  else if negb (Fs.exists_ fs full_path) then
    (fs, raise (mkExc 404 "File not found"))
  else
    match Fs.read fs full_path with
    | Some audio_bytes => (fs, Ok200 (mkDownload (Base64.b64encode audio_bytes)))
    | None =>
        (fs, raise (mkExc 500 ("Failed to read file: cannot open "
                                 +:+ full_path)))
    end.

Record DeleteBody := mkDelete { del_message : string }.

(** [delete_audio(file_path, user_id)] *)
Definition delete_audio (file_path user_id : string) (fs : Fs.t)
    : Fs.t * Response DeleteBody :=
  let full_path := PosixPath.join STORAGE_DIR file_path in
  if negb (traversal_check fs full_path) then
    (fs, raise (mkExc 400 "Invalid file path."))
  else if negb (Fs.exists_ fs full_path) then
    (fs, raise (mkExc 404 "File not found"))
  else
    match Fs.remove fs full_path with
    | Some fs' => (fs', Ok200 (mkDelete "File deleted successfully"))
    | None =>
        (fs, raise (mkExc 500 ("Failed to delete file: cannot remove "
                                 +:+ full_path)))
    end.

End Storage.

(** ** [services/user-management-service] *)

Module UserManagement.
Import Http.

Record AccountStatus := mkStatus {
  as_user_id : string;
  as_paid_status : bool;
  as_minutes_remaining : Z
}.

Record UpdateBody := mkUpdate { upd_message : string; new_minutes : Z }.

(** [get_account_status(user_id)] *)
Definition get_account_status (user_id : string)
    (users_db : gmap string User.t)
    : gmap string User.t * Response AccountStatus :=
  match users_db !! user_id with
  | None => (users_db, raise (mkExc 404 "User not found"))
  | Some user =>
      (users_db,
       Ok200 (mkStatus (User.id user) (User.paid_status user)
                       (User.minutes_remaining user)))
  end.

(** [update_user_minutes(user_id, minutes_change)] *)
Definition update_user_minutes (user_id : string) (minutes_change : Z)
    (users_db : gmap string User.t)
    : gmap string User.t * Response UpdateBody :=
  match users_db !! user_id with
  | None => (users_db, raise (mkExc 404 "User not found"))
  | Some user =>
      let user :=
        User.set_minutes_remaining (User.minutes_remaining user + minutes_change)
                                   user in
      let user :=
        if User.minutes_remaining user <? 0
        then User.set_minutes_remaining 0 user else user in
      let user :=
        if 0 <? User.minutes_remaining user
        then User.set_paid_status true user
        else User.set_paid_status false user in
      (<[user_id := user]> users_db,
       Ok200 (mkUpdate "Minutes updated successfully"
                       (User.minutes_remaining user)))
  end.




Record RegisterBody := mkRegister { reg_message : string; reg_user_id : string }.

(** The loop of [register_user] over [users_db.values()]: the detail of the
    first conflict, if there is one. *)
Fixpoint first_conflict (values : list User.t) (user : UserRegister.t)
    : option string :=
  match values with
  | [] => None
  | u :: rest =>
      if bool_decide (User.username u = UserRegister.username user) then
        Some "Username already registered"
      else if bool_decide (User.email u = UserRegister.email user) then
        Some "Email already registered"
      else first_conflict rest user
  end.

(** [register_user(user)].  [values] is [users_db.values()], the users in the
    order the dictionary yields them; [hashed_password] is what
    [hash_password(user.password)] returns and [new_user_id] what
    [generate_unique_id()] returns. *)
Definition register_user (user : UserRegister.t)
    (hashed_password new_user_id : string) (values : list User.t)
    (users_db : gmap string User.t)
    : gmap string User.t * Response RegisterBody :=
  match first_conflict values user with
  | Some detail => (users_db, raise (mkExc 400 detail))
  | None =>
      let new_user :=
        User.mk new_user_id (UserRegister.username user)
                (UserRegister.email user) hashed_password "user" false 0 in
      (<[new_user_id := new_user]> users_db,
       Ok200 (mkRegister "User registered successfully" new_user_id))
  end.

(** [values] lists the users stored in [users_db]. *)
Definition values_of (values : list User.t) (users_db : gmap string User.t)
    : Prop :=
  ∀ u, u ∈ values ↔ ∃ k, users_db !! k = Some u.

(** No two stored users share a username or an email. *)
Definition unique_accounts (users_db : gmap string User.t) : Prop :=
  ∀ k1 k2 u1 u2,
    users_db !! k1 = Some u1 → users_db !! k2 = Some u2 →
    User.username u1 = User.username u2 ∨ User.email u1 = User.email u2 →
    k1 = k2.

End UserManagement.

(** ** [services/notification-service] *)

Module NotificationService.
Import Http.

Record SendBody := mkSend { send_message : string }.

(** [send_notification(notification)]: the state of the service is what it
    has printed. *)
Definition send_notification (notification : Notification.t)
    (printed : list Notification.t)
    : list Notification.t * Response SendBody :=
  (printed ++ [notification], Ok200 (mkSend "Notification sent (simulated)")).

End NotificationService.

(** ** A dictionary that keeps the order of insertion *)

Module Dict.

Definition t (V : Type) : Type := list (string * V).

(** [d.get(k)] *)
Fixpoint get {V} (d : t V) (k : string) : option V :=
  match d with
  | [] => None
  | (k', v) :: rest => if bool_decide (k' = k) then Some v else get rest k
  end.

(** [d[k] = v]: a present key keeps its place, a new key goes last. *)
Fixpoint set {V} (k : string) (v : V) (d : t V) : t V :=
  match d with
  | [] => [(k, v)]
  | (k', v') :: rest =>
      if bool_decide (k' = k) then (k, v) :: rest
      else (k', v') :: set k v rest
  end.

End Dict.

(** ** [services/payment-service] *)

Module Payment.
Import Http.

Record DebitBody := mkDebit { deb_message : string; deb_status : string }.

(** [debit_minutes(user_id, minutes)]; [inner] is what happens to the request
    this handler sends to the user-management service. *)
Definition debit_minutes (user_id : string) (minutes : Z) (inner : Fault)
    (users_db : gmap string User.t)
    : gmap string User.t * Response DebitBody :=
  if minutes <=? 0 then
    (users_db, raise (mkExc 400 "Minutes to debit must be positive."))
  else
    let '(users_db', resp) :=
      call inner (UserManagement.update_user_minutes user_id (- minutes))
           users_db in
    match resp with
    | Returned (Ok200 _) =>
        (users_db',
         Ok200 (mkDebit ("Debited " +:+ pretty minutes +:+ " minutes from user "
                           +:+ user_id)
                        "success"))
    | Returned (ErrStatus code text) =>
        if code =? 404 then
          (users_db', raise (mkExc 404 "User not found for debit."))
        else
          (users_db', raise (mkExc code ("Failed to debit minutes: " +:+ text)))
    | Raised e =>
        (users_db', raise (mkExc 500 ("Unexpected error: " +:+ e)))
    end.

(** *** Checkout sessions and the webhook

    The amount of a payment is a [float] that the service stores and prints
    but never computes with: it is a value of a type [Amount] with its
    printing [str_amount]. *)

Section Checkout.

Context {Amount : Type} (str_amount : Amount → string).

(** [PaymentRequest] of [shared/models.py] *)
Record PaymentRequest := mkPaymentRequest {
  req_user_id : string;
  req_amount : Amount;
  req_currency : string;
  req_plan_name : string
}.

(** A value of [transactions_db]. *)
Record Transaction := mkTransaction {
  tr_user_id : string;
  tr_amount : Amount;
  tr_currency : string;
  tr_plan_name : string;
  tr_status : string;
  tr_gateway_url : string
}.

Definition set_tr_status (st : string) (tr : Transaction) : Transaction :=
  mkTransaction (tr_user_id tr) (tr_amount tr) (tr_currency tr)
                (tr_plan_name tr) st (tr_gateway_url tr).

(** What the payment service acts on: its transactions, the users of the
    user-management service, and what the notification service printed. *)
Record State := mkState {
  transactions_db : Dict.t Transaction;
  users : gmap string User.t;
  printed : list Notification.t
}.

Record CheckoutBody := mkCheckout {
  co_message : string;
  co_transaction_id : string;
  redirect_url : string
}.

(** [create_checkout_session(req)]; [transaction_id] is what
    [generate_unique_id()] returns. *)
Definition create_checkout_session (req : PaymentRequest)
    (transaction_id : string) (s : State) : State * Response CheckoutBody :=
  let gateway_url :=
    "https://dummy-payment-gateway.com/checkout?id=" +:+ transaction_id
      +:+ "&amount=" +:+ str_amount (req_amount req) in
  let transaction :=
    mkTransaction (req_user_id req) (req_amount req) (req_currency req)
                  (req_plan_name req) "pending" gateway_url in
  (mkState (Dict.set transaction_id transaction (transactions_db s))
           (users s) (printed s),
   Ok200 (mkCheckout "Checkout session created (dummy)" transaction_id
                     gateway_url)).

Record WebhookBody := mkWebhook { wh_message : string }.

(** [payment_webhook(update)]; [on_update] is what happens to the request to
    the user-management service, [on_notify] to the one to the notification
    service, whose answer is not inspected. *)
Definition payment_webhook (update : PaymentStatusUpdate.t)
    (on_update on_notify : Fault) (s : State) : State * Response WebhookBody :=
  let transaction_id := PaymentStatusUpdate.transaction_id update in
  match Dict.get (transactions_db s) transaction_id with
  | None => (s, raise (mkExc 404 "Transaction not found"))
  | Some transaction =>
      if bool_decide (tr_status transaction = "completed") then
        (s, Ok200 (mkWebhook "Transaction already processed"))
      else
        let transaction :=
          set_tr_status (PaymentStatusUpdate.status update) transaction in
        let s :=
          mkState (Dict.set transaction_id transaction (transactions_db s))
                  (users s) (printed s) in
        if bool_decide (PaymentStatusUpdate.status update = "completed") then
          let user_id_to_update :=
            if Py.truthy_str (PaymentStatusUpdate.user_id update)
            then PaymentStatusUpdate.user_id update
            else tr_user_id transaction in
          let minutes_to_add :=
            default 60 (PaymentStatusUpdate.minutes_added update) in
          let '(users', resp) :=
            call on_update
              (UserManagement.update_user_minutes user_id_to_update
                 minutes_to_add)
              (users s) in
          let s := mkState (transactions_db s) users' (printed s) in
          match resp with
          | Returned (Ok200 _) =>
              let notification_msg :=
                "Your payment for " +:+ tr_plan_name transaction
                  +:+ " was successful! You've received "
                  +:+ pretty minutes_to_add +:+ " minutes." in
              let '(printed', sent) :=
                call on_notify
                  (NotificationService.send_notification
                     (Notification.mk user_id_to_update notification_msg
                        "payment_success"))
                  (printed s) in
              let s := mkState (transactions_db s) (users s) printed' in
              match sent with
              | Returned _ =>
                  (s, Ok200 (mkWebhook
                     ("Webhook processed, transaction " +:+ transaction_id
                        +:+ " status updated to "
                        +:+ PaymentStatusUpdate.status update)))
              | Raised e =>
                  (s, raise (mkExc 500 ("Unexpected error: " +:+ e)))
              end
          | Returned (ErrStatus _ text) =>
              (s, raise (mkExc 500 ("Internal service error: " +:+ text)))
          | Raised e => (s, raise (mkExc 500 ("Unexpected error: " +:+ e)))
          end
        else
          (s, Ok200 (mkWebhook
             ("Webhook processed, transaction " +:+ transaction_id
                +:+ " status updated to "
                +:+ PaymentStatusUpdate.status update)))
  end.

(** [get_user_transactions(user_id)]: the transactions of the user, each
    with its id, in the order of the dictionary. *)
Definition get_user_transactions (user_id : string) (s : State)
    : list (string * Transaction) :=
  filter (λ item, tr_user_id (snd item) = user_id) (transactions_db s).

End Checkout.

End Payment.

(** ** The worker services and [shared/utils.py] *)

Module Workers.
Import Http.

Definition DUMMY_AUDIO_B64 : string :=
  "UklGRiQAAABXQVZFZm10IBIAAAABAAEARKwAAABAAAEBGGFjdGEBAAA=".

(** [get_dummy_audio_b64_from_file(file_path)], in a container with file
    system [fs]. *)
Definition get_dummy_audio_b64_from_file (file_path : string) (fs : Fs.t)
    : string :=
  match Fs.read fs file_path with
  | Some audio_bytes => Base64.b64encode audio_bytes
  | None => DUMMY_AUDIO_B64
  end.

(** [simulate_processing(input_b64, duration)]: the pause has no result. *)
Definition simulate_processing (input_b64 : option string) (fs : Fs.t)
    : string * string :=
  (get_dummy_audio_b64_from_file "/app/data/dummy_output.wav" fs,
   "This is a dummy transcription.").

Definition process_tts (req : AudioProcessRequest.t) (fs : Fs.t)
    : Response AudioProcessResponse.t :=
  if negb (Py.truthy_opt (AudioProcessRequest.input_text req)) then
    raise (mkExc 400 "Input text is required for TTS.")
  else
    let '(output_audio_b64, _) :=
      simulate_processing (AudioProcessRequest.input_text req) fs in
    Ok200 (AudioProcessResponse.mk "dummy_tts_job" "completed"
             (Some output_audio_b64) None
             (Some ("Text-to-speech completed for model "
                      +:+ AudioProcessRequest.model_name req))).

Definition process_stt (req : AudioProcessRequest.t) (fs : Fs.t)
    : Response AudioProcessResponse.t :=
  if negb (Py.truthy_opt (AudioProcessRequest.input_audio_b64 req)) then
    raise (mkExc 400 "Input audio is required for STT.")
  else
    let '(_, output_text) :=
      simulate_processing (AudioProcessRequest.input_audio_b64 req) fs in
    let output_audio_b64 : option string := None in
    Ok200 (AudioProcessResponse.mk "dummy_stt_job" "completed"
             output_audio_b64 (Some output_text)
             (Some ("Speech-to-text completed for model "
                      +:+ AudioProcessRequest.model_name req))).

Definition process_noise_removal (req : AudioProcessRequest.t) (fs : Fs.t)
    : Response AudioProcessResponse.t :=
  if negb (Py.truthy_opt (AudioProcessRequest.input_audio_b64 req)) then
    raise (mkExc 400 "Input audio is required for noise removal.")
  else
    let '(output_audio_b64, _) :=
      simulate_processing (AudioProcessRequest.input_audio_b64 req) fs in
    Ok200 (AudioProcessResponse.mk "dummy_noise_removal_job" "completed"
             (Some output_audio_b64) None
             (Some ("Noise removal completed for model "
                      +:+ AudioProcessRequest.model_name req))).

End Workers.

(** ** [services/audio-processing-orchestrator-service] *)

Module Orchestrator.
Import Http.

Definition WORKER_SERVICES : gmap string string :=
  <["tts" := "http://gen-ai-worker-tts-service:8005"]>
    (<["stt" := "http://gen-ai-worker-stt-service:8006"]>
       (<["noise_removal" := "http://gen-ai-worker-noise-removal-service:8007"]>
          ∅)).

(** *** Identity *)

(** The claims of a decoded token: [payload.get("sub")], [payload.get("role")]. *)
Record Claims := mkClaims { sub : option string; role : option string }.

(** The result of [decode_access_token(token)]. *)
Inductive Decoded :=
| DecodeError (error : string)
| DecodedClaims (c : Claims).

Definition get_current_user_orchestrator (payload : Decoded)
    : HTTPException + Claims :=
  match payload with
  | DecodeError error => inl (mkExc 401 error)
  | DecodedClaims c => inr c
  end.

(** *** The state the orchestrator acts on *)

(** Requests the orchestrator sends, and tasks it schedules, in order. *)
Inductive Event :=
| CallUpload (user_id audio_b64 file_name : string)
| CallFetch (file_path user_id : string)
| CallAccountStatus (user_id : string)
| CallDebit (user_id : string) (minutes : Z)
| CallWorker (job_id capability : string)
| CallNotify (job_id : string) (n : Notification.t)
| Scheduled (job_id : string).

(** Where a background task is suspended: before its first statement, or at
    one of its [await]s. *)
Inductive Pc :=
| AtStart
| AwaitWorker
| AwaitStore (worker_output : AudioProcessResponse.t)
| AwaitNotify
| Finished.

Record Task := mkTask {
  task_job_id : string;
  task_req : AudioProcessRequest.t;
  task_pc : Pc
}.

Record World := mkWorld {
  jobs_db : gmap string AudioJob.t;
  storage : Fs.t;
  users_db : gmap string User.t;
  background_tasks : list Task;
  log : list Event
}.

Definition with_jobs (f : gmap string AudioJob.t → gmap string AudioJob.t)
    (w : World) : World :=
  mkWorld (f (jobs_db w)) (storage w) (users_db w) (background_tasks w) (log w).
Definition with_storage (fs : Fs.t) (w : World) : World :=
  mkWorld (jobs_db w) fs (users_db w) (background_tasks w) (log w).
Definition with_users (u : gmap string User.t) (w : World) : World :=
  mkWorld (jobs_db w) (storage w) u (background_tasks w) (log w).
Definition with_tasks (f : list Task → list Task) (w : World) : World :=
  mkWorld (jobs_db w) (storage w) (users_db w) (f (background_tasks w)) (log w).
Definition emit (e : Event) (w : World) : World :=
  mkWorld (jobs_db w) (storage w) (users_db w) (background_tasks w)
          (log w ++ [e])%list.

(** *** Exceptions inside a [try] block *)

Inductive Exn :=
| HTTPStatusError (code : Z) (text : string)
| HTTPExc (e : HTTPException)
| Exception (msg : string).

(** [str(e)] for a caught [HTTPException]. *)
Definition str_http (e : HTTPException) : string :=
  pretty (status_code e) +:+ ": " +:+ detail e.

Definition M (A : Type) : Type := World → World * (Exn + A).

Definition ret {A} (a : A) : M A := λ w, (w, inr a).
Definition throw {A} (e : Exn) : M A := λ w, (w, inl e).
Definition bind {A B} (c : M A) (k : A → M B) : M B :=
  λ w, match c w with
       | (w', inl e) => (w', inl e)
       | (w', inr a) => k a w'
       end.

Notation "'let*' x ':=' c 'in' k" := (bind c (λ x, k))
  (at level 10, x pattern, c at level 100, k at level 200, only parsing).

(** [resp = await client.post(...); resp.raise_for_status(); resp.json()]
    for a request served by [handler] on the part [proj] of the world. *)
Definition request {S A : Type} (ev : Event) (proj : World → S)
    (inj : S → World → World) (f : Fault) (handler : S → S * Response A)
    : M A :=
  λ w,
    let w := emit ev w in
    let '(s', o) := call f handler (proj w) in
    let w := inj s' w in
    match o with
    | Returned (Ok200 body) => (w, inr body)
    | Returned (ErrStatus code text) => (w, inl (HTTPStatusError code text))
    | Raised e => (w, inl (Exception e))
    end.

Definition upload (user_id audio_b64 file_name : string) (f : Fault)
    : M Storage.UploadBody :=
  request (CallUpload user_id audio_b64 file_name) storage with_storage f
          (Storage.upload_audio user_id audio_b64 (Some file_name) "").

Definition fetch (file_path user_id : string) (f : Fault)
    : M Storage.DownloadBody :=
  request (CallFetch file_path user_id) storage with_storage f
          (Storage.download_audio file_path user_id).

Definition account_status (user_id : string) (f : Fault)
    : M UserManagement.AccountStatus :=
  request (CallAccountStatus user_id) users_db with_users f
          (UserManagement.get_account_status user_id).

Definition debit (user_id : string) (minutes : Z) (f inner : Fault)
    : M Payment.DebitBody :=
  request (CallDebit user_id minutes) users_db with_users f
          (Payment.debit_minutes user_id minutes inner).

(** *** [process_audio] *)

Record SubmitBody := mkSubmit { sub_job_id : string; sub_status : string }.

(** [jobs_db[job_id] = job; background_tasks.add_task(...)] and the answer. *)
Definition accept (job_id : string) (req : AudioProcessRequest.t)
    (job : AudioJob.t) (w : World) : World * (HTTPException + SubmitBody) :=
  let w := with_jobs (insert job_id job) w in
  let w := with_tasks (λ ts, (ts ++ [mkTask job_id req AtStart])%list) w in
  let w := emit (Scheduled job_id) w in
  (w, inr (mkSubmit job_id "Job accepted, processing in background.")).

(** [process_audio(req, background_tasks, user_info)]; [job_id] is what
    [generate_unique_id()] returns, [f] what happens to the upload request. *)
Definition process_audio (req : AudioProcessRequest.t) (job_id : string)
    (f : Fault) (token : Decoded) (w : World)
    : World * (HTTPException + SubmitBody) :=
  match get_current_user_orchestrator token with
  | inl e => (w, inl e)
  | inr user_info =>
      let job :=
        AudioJob.mk job_id (AudioProcessRequest.user_id req) None None
          (AudioProcessRequest.capability req)
          (AudioProcessRequest.model_name req) "pending"
          (default ∅ (AudioProcessRequest.parameters req)) in
      if Py.truthy_opt (AudioProcessRequest.input_audio_b64 req) then
        let input_filename := "input_" +:+ job_id +:+ ".wav" in
        match upload (AudioProcessRequest.user_id req)
                (Py.str_opt (AudioProcessRequest.input_audio_b64 req))
                input_filename f w with
        | (w, inr store_resp) =>
            accept job_id req
              (AudioJob.set_input_audio_path (Storage.file_path store_resp) job)
              w
        | (w, inl (HTTPStatusError _ text)) =>
            (w, inl (mkExc 500 ("Failed to upload input audio: " +:+ text)))
        | (w, inl (HTTPExc e)) =>
            (w, inl (mkExc 500 ("Unexpected error during input audio upload: "
                                  +:+ str_http e)))
        | (w, inl (Exception e)) =>
            (w, inl (mkExc 500 ("Unexpected error during input audio upload: "
                                  +:+ e)))
        end
      else accept job_id req job w
  end.

(** *** [get_job_status] *)

Record StatusBody := mkStatusBody {
  st_job_id : string;
  st_status : string;
  output_available : bool;
  st_output_text : option Py.Any;
  error_message : option Py.Any
}.

(** [sub != user_id and role != "admin"] *)
Definition not_visible (c : Claims) (user_id : string) : bool :=
  negb (bool_decide (sub c = Some user_id))
  && negb (bool_decide (role c = Some "admin")).

(** [jobs_db.get(job_id)] followed by [not job or job.user_id != user_id]. *)
Definition find_job (job_id user_id : string) (w : World) : option AudioJob.t :=
  match jobs_db w !! job_id with
  | Some job =>
      if bool_decide (AudioJob.user_id job = user_id) then Some job else None
  | None => None
  end.

Definition get_job_status (job_id user_id : string) (token : Decoded)
    (w : World) : World * (HTTPException + StatusBody) :=
  match get_current_user_orchestrator token with
  | inl e => (w, inl e)
  | inr current_user_payload =>
      if not_visible current_user_payload user_id then
        (w, inl (mkExc 403 "Forbidden: You can only check your own job status."))
      else
        match find_job job_id user_id w with
        | None => (w, inl (mkExc 404 "Job not found or not owned by user."))
        | Some job =>
            (w, inr (mkStatusBody (AudioJob.job_id job) (AudioJob.status job)
                       (bool_decide (AudioJob.status job = "completed")
                        && bool_decide (AudioJob.output_audio_path job ≠ None))
                       (AudioJob.metadata job !! "output_text")
                       (AudioJob.metadata job !! "error")))
        end
  end.

(** *** [download_audio] *)

Record DownloadBody := mkDl { dl_message : string; dl_audio_b64 : string }.

(** What happens to the requests of one download: to the user-management
    service, to the payment service, from the payment service to the
    user-management service, and to the storage service. *)
Record DownloadFaults := mkFaults {
  on_status : Fault;
  on_debit : Fault;
  on_debit_inner : Fault;
  on_fetch : Fault
}.

Definition payment_required : HTTPException :=
  mkExc 402 "Payment required to download audio. Please purchase minutes.".

(** The body of the [try] block. *)
Definition download_try (output_audio_path user_id : string)
    (f : DownloadFaults) : M DownloadBody :=
  let* user_status := account_status user_id (on_status f) in
  if negb (UserManagement.as_paid_status user_status)
     || (UserManagement.as_minutes_remaining user_status <=? 0)
  then throw (HTTPExc payment_required)
  else
    let audio_length_minutes := 1 in
    let* _ := debit user_id audio_length_minutes (on_debit f) (on_debit_inner f) in
    let* audio_data := fetch output_audio_path user_id (on_fetch f) in
    ret (mkDl "Audio downloaded successfully" (Storage.audio_b64 audio_data)).

(** The [except] clauses of the [try] block, in their order. *)
Definition download_except (e : Exn) : HTTPException :=
  match e with
  | HTTPStatusError code text =>
      if code =? 402 then payment_required
      else mkExc 500 ("Internal service error during download: " +:+ text)
  | HTTPExc e =>
      mkExc 500 ("An unexpected error occurred: " +:+ str_http e)
  | Exception e =>
      mkExc 500 ("An unexpected error occurred: " +:+ e)
  end.

Definition download_audio (job_id user_id : string) (f : DownloadFaults)
    (token : Decoded) (w : World) : World * (HTTPException + DownloadBody) :=
  match get_current_user_orchestrator token with
  | inl e => (w, inl e)
  | inr current_user_payload =>
      if not_visible current_user_payload user_id then
        (w, inl (mkExc 403 "Forbidden: You can only download your own audio."))
      else
        match find_job job_id user_id w with
        | None => (w, inl (mkExc 404 "Job not found or not owned by user."))
        | Some job =>
            if negb (bool_decide (AudioJob.status job = "completed"))
               || negb (Py.truthy_opt (AudioJob.output_audio_path job))
            then
              (w, inl (mkExc 400
                 "Audio processing not complete or output not available."))
            else
              match download_try (Py.str_opt (AudioJob.output_audio_path job))
                      user_id f w with
              | (w, inr body) => (w, inr body)
              | (w, inl e) => (w, inl (download_except e))
              end
        end
  end.

(** *** [_process_audio_in_background]

    The coroutine runs from one [await] to the next without interruption;
    each segment below is one such stretch.  [job] is the object stored under
    [job_id]; assignments to its fields update the job store in place. *)

Definition update_job (job_id : string) (f : AudioJob.t → AudioJob.t)
    (w : World) : World :=
  with_jobs (alter f job_id) w.

(** [job.status = "failed"; job.metadata["error"] = error] *)
Definition fail_job (job_id error : string) (w : World) : World :=
  update_job job_id
    (λ job, AudioJob.set_metadata "error" (Py.AStr error)
              (AudioJob.set_status "failed" job)) w.

(** The [finally] clause up to its [await]: the notification is built from
    the job as it is now and sent. *)
Definition notify (job_id : string) (req : AudioProcessRequest.t) (w : World)
    : World :=
  match jobs_db w !! job_id with
  | None => w
  | Some job =>
      let notification_type :=
        if bool_decide (AudioJob.status job = "completed")
        then "job_complete" else "job_failed" in
      let notification_message :=
        "Your audio processing job '" +:+ job_id +:+ "' for '"
          +:+ AudioProcessRequest.capability req +:+ "' is "
          +:+ AudioJob.status job +:+ "." in
      let notification_message :=
        if bool_decide (AudioJob.status job = "failed")
           && Py.truthy (default Py.ANone (AudioJob.metadata job !! "error"))
        then notification_message +:+ " Reason: "
               +:+ Py.str (default Py.ANone (AudioJob.metadata job !! "error"))
        else notification_message in
      emit (CallNotify job_id
              (Notification.mk (AudioProcessRequest.user_id req)
                               notification_message notification_type)) w
  end.

(** From the first statement to [await client.post(worker)], or to the early
    [return] when no worker serves the capability.  ([jobs_db[job_id]]
    raises [KeyError] for an unknown id, which ends the task.) *)
Definition segment_start (job_id : string) (req : AudioProcessRequest.t)
    (w : World) : World * Pc :=
  match jobs_db w !! job_id with
  | None => (w, Finished)
  | Some _ =>
      let worker_url := WORKER_SERVICES !! AudioProcessRequest.capability req in
      if negb (Py.truthy_opt worker_url) then
        (fail_job job_id
           ("No worker found for capability: "
              +:+ AudioProcessRequest.capability req) w,
         Finished)
      else
        let w := update_job job_id (AudioJob.set_status "processing") w in
        (emit (CallWorker job_id (AudioProcessRequest.capability req)) w,
         AwaitWorker)
  end.

(** From the answer of the worker to the next [await]: the upload of the
    output, or the notification of the [finally] clause.  [reply] is what
    [client.post], [raise_for_status] and the parsing of the body produce. *)
Definition segment_worker (job_id : string) (req : AudioProcessRequest.t)
    (reply : Outcome AudioProcessResponse.t) (w : World) : World * Pc :=
  match reply with
  | Returned (Ok200 worker_output) =>
      if bool_decide (AudioProcessResponse.status worker_output = "completed")
      then
        let w := update_job job_id (AudioJob.set_status "completed") w in
        if Py.truthy_opt (AudioProcessResponse.output_audio_b64 worker_output)
        then
          let output_filename := "output_" +:+ job_id +:+ ".wav" in
          (emit (CallUpload (AudioProcessRequest.user_id req)
                   (Py.str_opt
                      (AudioProcessResponse.output_audio_b64 worker_output))
                   output_filename) w,
           AwaitStore worker_output)
        else (notify job_id req w, AwaitNotify)
      else
        let w :=
          fail_job job_id
            (Py.or_else (AudioProcessResponse.message worker_output)
                        "Worker reported failure.") w in
        (notify job_id req w, AwaitNotify)
  | Returned (ErrStatus _ text) =>
      let w := fail_job job_id ("Worker communication error: " +:+ text) w in
      (notify job_id req w, AwaitNotify)
  | Raised e =>
      let w :=
        fail_job job_id
          ("An unexpected error occurred during processing: " +:+ e) w in
      (notify job_id req w, AwaitNotify)
  end.

(** From the answer of the storage service to the notification. *)
Definition segment_store (job_id : string) (req : AudioProcessRequest.t)
    (worker_output : AudioProcessResponse.t) (f : Fault) (w : World)
    : World * Pc :=
  let output_filename := "output_" +:+ job_id +:+ ".wav" in
  let '(fs, store_resp) :=
    call f
      (Storage.upload_audio (AudioProcessRequest.user_id req)
         (Py.str_opt (AudioProcessResponse.output_audio_b64 worker_output))
         (Some output_filename) "")
      (storage w) in
  let w := with_storage fs w in
  match store_resp with
  | Returned (Ok200 body) =>
      let w :=
        update_job job_id
          (λ job,
             AudioJob.set_metadata "output_text"
               (Py.of_opt (AudioProcessResponse.output_text worker_output))
               (AudioJob.set_output_audio_path (Storage.file_path body) job))
          w in
      (notify job_id req w, AwaitNotify)
  | Returned (ErrStatus _ text) =>
      let w := fail_job job_id ("Worker communication error: " +:+ text) w in
      (notify job_id req w, AwaitNotify)
  | Raised e =>
      let w :=
        fail_job job_id
          ("An unexpected error occurred during processing: " +:+ e) w in
      (notify job_id req w, AwaitNotify)
  end.

(** One segment of a task.  [reply] is used by a task that awaits its worker,
    [f] by a task that awaits the storage service; the answer of the
    notification service, or its failure, is discarded. *)
Definition segment (t : Task) (reply : Outcome AudioProcessResponse.t)
    (f : Fault) (w : World) : World * Pc :=
  match task_pc t with
  | AtStart => segment_start (task_job_id t) (task_req t) w
  | AwaitWorker => segment_worker (task_job_id t) (task_req t) reply w
  | AwaitStore worker_output =>
      segment_store (task_job_id t) (task_req t) worker_output f w
  | AwaitNotify => (w, Finished)
  | Finished => (w, Finished)
  end.

(** The event loop resumes the [i]-th scheduled task. *)
Definition resume (i : nat) (reply : Outcome AudioProcessResponse.t)
    (f : Fault) (w : World) : World :=
  match background_tasks w !! i with
  | None => w
  | Some t =>
      let '(w, pc) := segment t reply f w in
      with_tasks (<[i := mkTask (task_job_id t) (task_req t) pc]>) w
  end.

(** *** Runs of the service

    A run is a sequence of operations: requests to the three endpoints and
    resumptions of background tasks.  A request is served in one piece; a
    background task, which FastAPI starts after the answer to [process_audio]
    is sent, runs segment by segment, and requests are served between its
    segments. *)

Inductive Op :=
| Submit (req : AudioProcessRequest.t) (job_id : string) (f : Fault)
    (token : Decoded)
| Resume (i : nat) (reply : Outcome AudioProcessResponse.t) (f : Fault)
| GetStatus (job_id user_id : string) (token : Decoded)
| Download (job_id user_id : string) (f : DownloadFaults) (token : Decoded).

Definition run (o : Op) (w : World) : World :=
  match o with
  | Submit req job_id f token => fst (process_audio req job_id f token w)
  | Resume i reply f => resume i reply f w
  | GetStatus job_id user_id token => fst (get_job_status job_id user_id token w)
  | Download job_id user_id f token => fst (download_audio job_id user_id f token w)
  end.

(** [generate_unique_id()] returns a fresh identifier on every call. *)
Definition enabled (o : Op) (w : World) : Prop :=
  match o with
  | Submit _ job_id _ _ => jobs_db w !! job_id = None
  | _ => True
  end.

Inductive step (w : World) : World → Prop :=
| step_run (o : Op) : enabled o w → step w (run o w).

Definition initial (fs : Fs.t) (users : gmap string User.t) : World :=
  mkWorld ∅ fs users [] [].

(** Worlds the service can reach from its start. *)
Inductive reachable : World → Prop :=
| reachable_initial fs users : reachable (initial fs users)
| reachable_step w w' : reachable w → step w w' → reachable w'.

(** The status of a job as a poll by its owner reads it. *)
Definition polled_status (job_id : string) (w : World) : option string :=
  AudioJob.status <$> jobs_db w !! job_id.

(** pending < processing < completed, failed *)
Definition status_rank (s : string) : nat :=
  if bool_decide (s = "pending") then 0
  else if bool_decide (s = "processing") then 1
  else 2.

Definition terminal (s : string) : bool :=
  bool_decide (s = "completed") || bool_decide (s = "failed").

(** The notifications sent for a job. *)
Definition notifications (job_id : string) (l : list Event)
    : list Notification.t :=
  omap (λ e, match e with
             | CallNotify j n => if bool_decide (j = job_id) then Some n else None
             | _ => None
             end) l.

(** *** What holds of every reachable world *)

(** The status a job has while its task is suspended at [pc]. *)
Definition pc_status_ok (pc : Pc) (s : string) : Prop :=
  match pc with
  | AtStart => s = "pending"
  | AwaitWorker => s = "processing"
  | AwaitStore _ => s = "completed"
  | AwaitNotify | Finished => s = "completed" ∨ s = "failed"
  end.

Definition kind_of (s : string) : string :=
  if bool_decide (s = "completed") then "job_complete" else "job_failed".

(** The notifications [ns] sent for a job whose task is at [pc]: none before
    the [finally] clause, one of the kind of the status after it, and none
    for a task that ended by the early [return], which is the end of the
    tasks whose capability has no worker. *)
Definition registered (capability : string) : Prop :=
  Py.truthy_opt (WORKER_SERVICES !! capability) = true.

Definition notified (pc : Pc) (capability s : string)
    (ns : list Notification.t) : Prop :=
  match pc with
  | AtStart => ns = []
  | AwaitWorker | AwaitStore _ => ns = [] ∧ registered capability
  | AwaitNotify =>
      registered capability
      ∧ ∃ n, ns = [n] ∧ Notification.notification_type n = kind_of s
  | Finished =>
      (ns = [] ∧ ¬ registered capability)
      ∨ (registered capability
         ∧ ∃ n, ns = [n] ∧ Notification.notification_type n = kind_of s)
  end.

Record consistent (w : World) : Prop := mkConsistent {
  task_job : ∀ i t, background_tasks w !! i = Some t →
    ∃ job, jobs_db w !! task_job_id t = Some job
           ∧ pc_status_ok (task_pc t) (AudioJob.status job)
           ∧ notified (task_pc t) (AudioProcessRequest.capability (task_req t))
               (AudioJob.status job) (notifications (task_job_id t) (log w));
  task_unique : ∀ i j t t',
    background_tasks w !! i = Some t → background_tasks w !! j = Some t' →
    task_job_id t = task_job_id t' → i = j;
  job_task : ∀ j job, jobs_db w !! j = Some job →
    ∃ i t, background_tasks w !! i = Some t ∧ task_job_id t = j;
  unknown_silent : ∀ j, jobs_db w !! j = None → notifications j (log w) = []
}.

(** The output path of the job of a task at [pc]: it is set only once the
    upload of the output has returned, when the job is completed, and it is
    the path the storage service gives to the output of that job. *)
Definition output_ok (job_id : string) (job : AudioJob.t) (pc : Pc) : Prop :=
  ∀ p, AudioJob.output_audio_path job = Some p →
       (pc = AwaitNotify ∨ pc = Finished)
       ∧ AudioJob.status job = "completed"
       ∧ p = "/app/data/output_" +:+ job_id +:+ ".wav".

Definition outputs_ok (w : World) : Prop :=
  ∀ i t job,
    background_tasks w !! i = Some t →
    jobs_db w !! task_job_id t = Some job →
    output_ok (task_job_id t) job (task_pc t).

End Orchestrator.

(** ** [services/api-gateway] *)

Module Gateway.
Import Http.

(** [s.split(" ")]; [cur] holds the letters of the current piece in reverse. *)
Fixpoint split_go (s : string) (cur : string) : list string :=
  match s with
  | "" => [String.rev cur]
  | String c r =>
      if bool_decide (c = " "%char) then String.rev cur :: split_go r ""
      else split_go r (String c cur)
  end.

Definition split_space (s : string) : list string := split_go s "".

(** [s.lower()] on the letters A to Z; no other character becomes a letter
    of the word it is compared with. *)
Definition lower_char (c : ascii) : ascii :=
  let n := nat_of_ascii c in
  if (65 <=? n)%nat && (n <=? 90)%nat then ascii_of_nat (n + 32) else c.

Fixpoint lower (s : string) : string :=
  match s with
  | "" => ""
  | String c r => String (lower_char c) (lower r)
  end.

(** [verify_token(request)]: [path] is [request.url.path], [auth_header] the
    [Authorization] header, [decode] stands for [decode_access_token].  The
    exceptions raised inside the [try] block, [HTTPException] included, are
    caught by its [except] clauses. *)
Definition verify_token (path : string) (auth_header : option string)
    (decode : string → Orchestrator.Decoded)
    : HTTPException + Orchestrator.Claims :=
  if bool_decide (path = "/api/users/register")
     || bool_decide (path = "/api/users/login")
  then inr (Orchestrator.mkClaims (Some "anonymous") (Some "guest"))
  else if negb (Py.truthy_opt auth_header) then
    inl (mkExc 401 "Authorization header missing")
  else
    match split_space (Py.str_opt auth_header) with
    | [scheme; token] =>
        if negb (bool_decide (lower scheme = "bearer")) then
          inl (mkExc 401
                 ("Authentication error: "
                    +:+ Orchestrator.str_http
                          (mkExc 401 "Invalid authentication scheme")))
        else
          match decode token with
          | Orchestrator.DecodeError error =>
              inl (mkExc 401
                     ("Authentication error: "
                        +:+ Orchestrator.str_http (mkExc 401 error)))
          | Orchestrator.DecodedClaims payload => inr payload
          end
    | _ => inl (mkExc 401 "Invalid token format")
    end.

Record AccessBody := mkAccess { acc_message : string; acc_user_id : string }.

(** [check_developer_access(user_info)], with [sub] the subject of the
    verified token.  An exception that leaves the endpoint is answered by
    the framework with status 500. *)
Definition check_developer_access (sub : string) (f : Fault)
    (users_db : gmap string User.t)
    : gmap string User.t * Response AccessBody :=
  let '(users_db, resp) :=
    call f (UserManagement.get_account_status sub) users_db in
  match resp with
  | Returned (Ok200 account_status) =>
      if UserManagement.as_paid_status account_status then
        (users_db,
         Ok200 (mkAccess "API access granted for paid user." sub))
      else
        (users_db,
         raise (mkExc 403
                  "Forbidden: Only paid users have developer API access."))
  | Returned (ErrStatus _ _) | Raised _ =>
      (users_db, ErrStatus 500 "Internal Server Error")
  end.

End Gateway.

(** ** A run used as an example

    A text-to-speech job of a paid user, answered by the worker of the
    repository and run to its end with every service reachable. *)

Module Scenario.
Import Http Orchestrator.

Definition fs : Fs.t := Fs.mk ∅ {[ "/app"; "/app/data" ]} "/app".
Definition alice : User.t :=
  User.mk "alice" "alice" "alice@example.com" "pw" "user" true 5.
Definition users : gmap string User.t := {[ "alice" := alice ]}.
Definition req : AudioProcessRequest.t :=
  AudioProcessRequest.mk "alice" None (Some "hello") "tts" "m" None.
Definition token : Decoded :=
  DecodedClaims (mkClaims (Some "alice") (Some "user")).
Definition reply : Outcome AudioProcessResponse.t :=
  Returned (Workers.process_tts req fs).

(** submitted; processing; completed, output not yet stored; output stored
    and notification sent; ended *)
Definition w0 : World := initial fs users.
Definition w1 : World := run (Submit req "j1" NoFault token) w0.
Definition w2 : World := run (Resume 0 reply NoFault) w1.
Definition w3 : World := run (Resume 0 reply NoFault) w2.
Definition w4 : World := run (Resume 0 reply NoFault) w3.
Definition w5 : World := run (Resume 0 reply NoFault) w4.

End Scenario.

(** * Properties *)

Import Http.

(** ** User-management service: the balance after an update *)


(** C10. After [update_user_minutes] on an existing user the call answers
    200 whatever the change is, the stored balance is the old balance plus the
    change clamped at 0 (so it is never negative, and a debit larger than the
    balance leaves 0), and [paid_status] is true exactly when the balance is
    positive. *)
Theorem update_user_minutes_clamps (users_db : gmap string User.t)
    (user_id : string) (minutes_change : Z) (user : User.t) :
  users_db !! user_id = Some user →
  ∃ user' : User.t,
    UserManagement.update_user_minutes user_id minutes_change users_db
      = (<[user_id := user']> users_db,
         Ok200 (UserManagement.mkUpdate "Minutes updated successfully"
                  (User.minutes_remaining user')))
    ∧ User.minutes_remaining user'
        = Z.max 0 (User.minutes_remaining user + minutes_change)
    ∧ 0 ≤ User.minutes_remaining user'
    ∧ (User.minutes_remaining user + minutes_change < 0 →
       User.minutes_remaining user' = 0)
    ∧ (User.paid_status user' = true ↔ 0 < User.minutes_remaining user').
Proof.
  intros Hu. unfold UserManagement.update_user_minutes. rewrite Hu.
  destruct user as [i n e p r paid m]; cbn [User.minutes_remaining
    User.set_minutes_remaining User.set_paid_status User.id User.username
    User.email User.password User.role User.paid_status].
  destruct (Z.ltb_spec (m + minutes_change) 0) as [Hneg|Hpos];
    cbn [User.minutes_remaining User.set_minutes_remaining User.set_paid_status
         User.id User.username User.email User.password User.role
         User.paid_status].
  - eexists. split; [reflexivity|]. cbn. repeat split; try lia; try congruence.
  - destruct (Z.ltb_spec 0 (m + minutes_change)) as [Hgt|Hle];
      (eexists; split; [reflexivity|]); cbn; repeat split; try lia;
      try congruence.
Qed.

Lemma update_user_minutes_clamps_witness :
  ∃ user' : User.t,
    UserManagement.update_user_minutes "u1" (-7)
      {[ "u1" := User.mk "u1" "ann" "ann@example.com" "pw" "user" true 3 ]}
      = (<["u1" := user']>
           {[ "u1" := User.mk "u1" "ann" "ann@example.com" "pw" "user" true 3 ]},
         Ok200 (UserManagement.mkUpdate "Minutes updated successfully"
                  (User.minutes_remaining user')))
    ∧ User.minutes_remaining user' = Z.max 0 (3 + -7)
    ∧ 0 ≤ User.minutes_remaining user'
    ∧ (3 + -7 < 0 → User.minutes_remaining user' = 0)
    ∧ (User.paid_status user' = true ↔ 0 < User.minutes_remaining user').
Proof.
  apply (update_user_minutes_clamps
           {[ "u1" := User.mk "u1" "ann" "ann@example.com" "pw" "user" true 3 ]}
           "u1" (-7)
           (User.mk "u1" "ann" "ann@example.com" "pw" "user" true 3)).
  apply lookup_singleton_eq.
Defined.

(** ** Orchestrator: who may see a job, and when a download is refused *)

Section Visibility.
Import Orchestrator.

Lemma not_visible_false (c : Claims) (user_id : string) :
  sub c = Some user_id ∨ role c = Some "admin" → not_visible c user_id = false.
Proof.
  unfold not_visible. intros [H|H].
  - rewrite (bool_decide_eq_true_2 _ H). reflexivity.
  - rewrite (bool_decide_eq_true_2 _ H). apply andb_false_r.
Qed.

Lemma not_visible_true (c : Claims) (user_id : string) :
  sub c ≠ Some user_id → role c ≠ Some "admin" → not_visible c user_id = true.
Proof.
  unfold not_visible. intros H1 H2.
  rewrite (bool_decide_eq_false_2 _ H1), (bool_decide_eq_false_2 _ H2).
  reflexivity.
Qed.

Lemma find_job_owned (job_id user_id : string) (w : World) (job : AudioJob.t) :
  jobs_db w !! job_id = Some job → AudioJob.user_id job = user_id →
  find_job job_id user_id w = Some job.
Proof.
  intros Hj Ho. unfold find_job. rewrite Hj.
  rewrite (bool_decide_eq_true_2 _ Ho). reflexivity.
Qed.

Lemma find_job_none (job_id user_id : string) (w : World) :
  (∀ job, jobs_db w !! job_id = Some job → AudioJob.user_id job ≠ user_id) →
  find_job job_id user_id w = None.
Proof.
  intros H. unfold find_job. destruct (jobs_db w !! job_id) as [job|] eqn:E;
    [|reflexivity].
  rewrite (bool_decide_eq_false_2 _ (H job eq_refl)). reflexivity.
Qed.

(** A download never answers 403 once the visibility check is passed. *)
Lemma download_except_code (e : Exn) :
  status_code (download_except e) = 402 ∨ status_code (download_except e) = 500.
Proof.
  destruct e as [code text|e|e]; cbn; [|by right|by right].
  destruct (code =? 402); [by left|by right].
Qed.

End Visibility.

(** C7. For a caller who is the owner or an admin and a job stored under the
    queried id and owner, whose status is not "completed" or whose output path
    is unset, [download_audio] answers 400 and leaves the world as it was: no
    request to the billing or storage services has been sent. *)
Theorem download_incomplete_is_invalid_state
    (job_id user_id : string) (f : Orchestrator.DownloadFaults)
    (c : Orchestrator.Claims) (w : Orchestrator.World) (job : AudioJob.t) :
  Orchestrator.sub c = Some user_id ∨ Orchestrator.role c = Some "admin" →
  Orchestrator.jobs_db w !! job_id = Some job →
  AudioJob.user_id job = user_id →
  AudioJob.status job ≠ "completed" ∨ AudioJob.output_audio_path job = None →
  Orchestrator.download_audio job_id user_id f (Orchestrator.DecodedClaims c) w
    = (w, inl (mkExc 400
                 "Audio processing not complete or output not available.")).
Proof.
  intros Hvis Hjob Hown Hinc. unfold Orchestrator.download_audio. cbn.
  rewrite (not_visible_false _ _ Hvis), (find_job_owned _ _ _ _ Hjob Hown).
  destruct Hinc as [Hst|Hout].
  - rewrite (bool_decide_eq_false_2 _ Hst). reflexivity.
  - rewrite Hout. cbn. rewrite orb_true_r. reflexivity.
Qed.

Lemma download_incomplete_is_invalid_state_witness :
  let job :=
    AudioJob.mk "j1" "alice" None None "tts" "m" "processing" ∅ in
  let w := Orchestrator.mkWorld {[ "j1" := job ]} (Fs.mk ∅ ∅ "/") ∅ [] [] in
  Orchestrator.download_audio "j1" "alice"
    (Orchestrator.mkFaults NoFault NoFault NoFault NoFault)
    (Orchestrator.DecodedClaims
       (Orchestrator.mkClaims (Some "alice") (Some "user"))) w
    = (w, inl (mkExc 400
                 "Audio processing not complete or output not available.")).
Proof.
  intros job w.
  apply (download_incomplete_is_invalid_state "j1" "alice" _
           (Orchestrator.mkClaims (Some "alice") (Some "user")) w job).
  - left. reflexivity.
  - apply lookup_singleton_eq.
  - reflexivity.
  - left. discriminate.
Defined.

(** C8. [get_job_status] and [download_audio] answer 403 when the caller is
    neither the queried [user_id] nor an admin; for an admin neither of them
    answers 403, and the status query of a stored job owned by [user_id]
    succeeds; and for a caller who passes the visibility check both answer
    404 when no job with that id owned by that [user_id] is stored.  A
    refused call leaves the world as it was. *)
Theorem visibility_of_jobs
    (job_id user_id : string) (f : Orchestrator.DownloadFaults)
    (c : Orchestrator.Claims) (w : Orchestrator.World) :
  let token := Orchestrator.DecodedClaims c in
  (Orchestrator.sub c ≠ Some user_id → Orchestrator.role c ≠ Some "admin" →
     Orchestrator.get_job_status job_id user_id token w
       = (w, inl (mkExc 403
                    "Forbidden: You can only check your own job status."))
     ∧ Orchestrator.download_audio job_id user_id f token w
       = (w, inl (mkExc 403
                    "Forbidden: You can only download your own audio.")))
  ∧ (Orchestrator.role c = Some "admin" →
     (∀ e, snd (Orchestrator.get_job_status job_id user_id token w) = inl e →
           status_code e ≠ 403)
     ∧ (∀ e, snd (Orchestrator.download_audio job_id user_id f token w) = inl e →
             status_code e ≠ 403)
     ∧ (∀ job, Orchestrator.jobs_db w !! job_id = Some job →
               AudioJob.user_id job = user_id →
               ∃ body,
                 Orchestrator.get_job_status job_id user_id token w
                   = (w, inr body)
                 ∧ Orchestrator.st_status body = AudioJob.status job))
  ∧ (Orchestrator.sub c = Some user_id ∨ Orchestrator.role c = Some "admin" →
     (∀ job, Orchestrator.jobs_db w !! job_id = Some job →
             AudioJob.user_id job ≠ user_id) →
     Orchestrator.get_job_status job_id user_id token w
       = (w, inl (mkExc 404 "Job not found or not owned by user."))
     ∧ Orchestrator.download_audio job_id user_id f token w
       = (w, inl (mkExc 404 "Job not found or not owned by user."))).
Proof.
  intros token. unfold Orchestrator.get_job_status, Orchestrator.download_audio.
  cbn [token Orchestrator.get_current_user_orchestrator].
  split; [|split].
  - intros Hs Hr. rewrite (not_visible_true _ _ Hs Hr). split; reflexivity.
  - intros Hadmin.
    rewrite (not_visible_false c user_id (or_intror Hadmin)).
    split; [|split].
    + intros e. destruct (Orchestrator.find_job job_id user_id w);
        cbn; intros [= <-]; cbn; lia.
    + intros e. destruct (Orchestrator.find_job job_id user_id w) as [job|];
        [|cbn; intros [= <-]; cbn; lia].
      destruct (_ || _); [cbn; intros [= <-]; cbn; lia|].
      destruct (Orchestrator.download_try _ _ _ _) as [w' [e'|body]];
        cbn; [|discriminate].
      intros [= <-]. destruct (download_except_code e') as [-> | ->]; lia.
    + intros job Hjob Hown. rewrite (find_job_owned _ _ _ _ Hjob Hown).
      eexists. split; reflexivity.
  - intros Hvis Hnone.
    rewrite (not_visible_false _ _ Hvis), (find_job_none _ _ _ Hnone).
    split; reflexivity.
Qed.

Lemma visibility_of_jobs_witness :
  let job := AudioJob.mk "j1" "alice" None None "tts" "m" "pending" ∅ in
  let w := Orchestrator.mkWorld {[ "j1" := job ]} (Fs.mk ∅ ∅ "/") ∅ [] [] in
  let f := Orchestrator.mkFaults NoFault NoFault NoFault NoFault in
  let bob := Orchestrator.DecodedClaims
               (Orchestrator.mkClaims (Some "bob") (Some "user")) in
  let root := Orchestrator.DecodedClaims
                (Orchestrator.mkClaims (Some "root") (Some "admin")) in
  (Orchestrator.get_job_status "j1" "alice" bob w
     = (w, inl (mkExc 403 "Forbidden: You can only check your own job status."))
   ∧ Orchestrator.download_audio "j1" "alice" f bob w
     = (w, inl (mkExc 403 "Forbidden: You can only download your own audio.")))
  ∧ (∃ body, Orchestrator.get_job_status "j1" "alice" root w = (w, inr body)
             ∧ Orchestrator.st_status body = "pending")
  ∧ (Orchestrator.get_job_status "j1" "carol" root w
       = (w, inl (mkExc 404 "Job not found or not owned by user."))
     ∧ Orchestrator.download_audio "j1" "carol" f root w
       = (w, inl (mkExc 404 "Job not found or not owned by user."))).
Proof.
  intros job w f bob root.
  destruct (visibility_of_jobs "j1" "alice" f
              (Orchestrator.mkClaims (Some "bob") (Some "user")) w)
    as [Hforbidden _].
  destruct (visibility_of_jobs "j1" "alice" f
              (Orchestrator.mkClaims (Some "root") (Some "admin")) w)
    as [_ [Hadmin _]].
  destruct (visibility_of_jobs "j1" "carol" f
              (Orchestrator.mkClaims (Some "root") (Some "admin")) w)
    as [_ [_ Hnotfound]].
  split; [|split].
  - apply Hforbidden; discriminate.
  - destruct (Hadmin eq_refl) as [_ [_ Hok]].
    apply (Hok job); [apply lookup_singleton_eq | reflexivity].
  - apply Hnotfound.
    + right. reflexivity.
    + intros job' Hjob'. unfold w in Hjob'. cbn in Hjob'.
      rewrite lookup_singleton_eq in Hjob'. injection Hjob' as <-. discriminate.
Defined.

(** ** Storage and transport: what a successful upload means *)

Lemma call_returned {S A : Type} (f : Fault) (h : S → S * Response A)
    (s s' : S) (r : Response A) :
  call f h s = (s', Returned r) → f = NoFault ∧ h s = (s', r).
Proof.
  destruct f; cbn; [|discriminate..].
  destruct (h s) as [s1 r1]. intros [= <- <-]. split; reflexivity.
Qed.

Lemma walk_dirs (fs fs' : Fs.t) (comps stack : list string) :
  Fs.dirs fs' = Fs.dirs fs → Fs.walk fs' comps stack = Fs.walk fs comps stack.
Proof.
  intros Hd. revert stack. induction comps as [|c rest IH]; intros stack;
    [reflexivity|].
  cbn. unfold Fs.is_dir. rewrite Hd.
  destruct (_ || _); [apply IH|].
  destruct (_ || _); [|reflexivity].
  destruct (bool_decide (c = "..")); apply IH.
Qed.

Lemma read_after_write (fs fs' : Fs.t) (p : string) (bs : list Byte.byte) :
  Fs.write fs p bs = Some fs' → Fs.read fs' p = Some bs.
Proof.
  unfold Fs.write, Fs.read.
  destruct (Fs.resolve fs p) as [c|] eqn:Hres; [|discriminate].
  destruct (Fs.is_dir fs c) eqn:Hdir; [discriminate|].
  intros [= <-]. unfold Fs.resolve in *. cbn [Fs.cwd].
  rewrite (walk_dirs fs (Fs.mk _ (Fs.dirs fs) (Fs.cwd fs)) _ _ eq_refl), Hres.
  unfold Fs.is_dir in *. cbn [Fs.dirs Fs.files]. rewrite Hdir.
  apply lookup_insert_eq.
Qed.

Lemma upload_audio_ok (user_id audio_b64 name uid : string) (fs fs' : Fs.t)
    (body : Storage.UploadBody) :
  Py.truthy_str name = true →
  Storage.upload_audio user_id audio_b64 (Some name) uid fs = (fs', Ok200 body) →
  ∃ bytes,
    Base64.b64decode audio_b64 = Some bytes
    ∧ Fs.write fs (PosixPath.join Storage.STORAGE_DIR name) bytes = Some fs'
    ∧ Storage.file_path body = PosixPath.join Storage.STORAGE_DIR name.
Proof.
  intros Hname. unfold Storage.upload_audio. cbn [Py.truthy_opt Py.str_opt].
  rewrite Hname.
  destruct (Base64.b64decode audio_b64) as [bytes|]; [|discriminate].
  destruct (Fs.write fs _ bytes) as [fs1|] eqn:Hw; [|discriminate].
  intros [= <- <-]. exists bytes. repeat split; assumption.
Qed.

(** ** Orchestrator: submitting a job *)

(** C5. For an authenticated submission with input audio: when the upload of
    the input does not return a 200 answer, [process_audio] answers 500, and
    neither a job nor a background task has been added (only the upload
    request has been sent); and whenever [process_audio] accepts the
    submission, the upload request was sent before the task was scheduled,
    the stored job records the path of the input, and the blob store holds
    the decoded input under that path. *)
Theorem process_audio_persists_input_first
    (req : AudioProcessRequest.t) (job_id : string) (f : Fault)
    (c : Orchestrator.Claims) (w : Orchestrator.World) :
  Py.truthy_opt (AudioProcessRequest.input_audio_b64 req) = true →
  let user_id := AudioProcessRequest.user_id req in
  let audio_b64 := Py.str_opt (AudioProcessRequest.input_audio_b64 req) in
  let file_name := "input_" +:+ job_id +:+ ".wav" in
  let submitted :=
    Orchestrator.process_audio req job_id f (Orchestrator.DecodedClaims c) w in
  ((∀ body,
      snd (call f (Storage.upload_audio user_id audio_b64 (Some file_name) "")
                (Orchestrator.storage w)) ≠ Returned (Ok200 body)) →
   ∃ e, snd submitted = inl e ∧ status_code e = 500
        ∧ Orchestrator.jobs_db (fst submitted) = Orchestrator.jobs_db w
        ∧ Orchestrator.background_tasks (fst submitted)
            = Orchestrator.background_tasks w
        ∧ Orchestrator.log (fst submitted)
            = (Orchestrator.log w
                 ++ [Orchestrator.CallUpload user_id audio_b64 file_name])%list)
  ∧ (∀ body, snd submitted = inr body →
     ∃ path bytes job,
       Orchestrator.log (fst submitted)
         = (Orchestrator.log w
              ++ [Orchestrator.CallUpload user_id audio_b64 file_name;
                  Orchestrator.Scheduled job_id])%list
       ∧ Orchestrator.jobs_db (fst submitted) !! job_id = Some job
       ∧ AudioJob.input_audio_path job = Some path
       ∧ Base64.b64decode audio_b64 = Some bytes
       ∧ Fs.read (Orchestrator.storage (fst submitted)) path = Some bytes).
Proof.
  intros Hin user_id audio_b64 file_name submitted.
  subst submitted. unfold Orchestrator.process_audio.
  cbn [Orchestrator.get_current_user_orchestrator]. rewrite Hin.
  unfold Orchestrator.upload, Orchestrator.request.
  cbn [Orchestrator.storage Orchestrator.emit].
  fold user_id audio_b64 file_name.
  destruct (call f _ (Orchestrator.storage w)) as [fs' o] eqn:Hcall.
  cbn [snd]. destruct o as [[body|code text]|e].
  - split.
    + intros Hfail. destruct (Hfail body eq_refl).
    + intros _ _. apply call_returned in Hcall as [-> Hup].
      apply upload_audio_ok in Hup as (bytes & Hdec & Hwr & Hpath);
        [|reflexivity].
      exists (Storage.file_path body), bytes. eexists. cbn.
      split; [rewrite <- app_assoc; reflexivity|].
      split; [apply lookup_insert_eq|].
      split; [reflexivity|]. split; [exact Hdec|].
      rewrite Hpath. apply (read_after_write _ _ _ _ Hwr).
  - split; [|discriminate]. intros _. eexists. cbn. repeat split; reflexivity.
  - split; [|discriminate]. intros _. eexists. cbn. repeat split; reflexivity.
Qed.

Lemma process_audio_persists_input_first_witness :
  let req :=
    AudioProcessRequest.mk "alice" (Some "QQ==") None "stt" "whisper" None in
  let token :=
    Orchestrator.DecodedClaims
      (Orchestrator.mkClaims (Some "alice") (Some "user")) in
  let w :=
    Orchestrator.initial (Fs.mk ∅ {[ "/app"; "/app/data" ]} "/app") ∅ in
  (∃ e,
     snd (Orchestrator.process_audio req "j1" (ConnectError "refused") token w)
       = inl e
     ∧ status_code e = 500
     ∧ Orchestrator.jobs_db
         (fst (Orchestrator.process_audio req "j1" (ConnectError "refused")
                 token w)) = ∅)
  ∧ (∃ job,
       Orchestrator.jobs_db
         (fst (Orchestrator.process_audio req "j1" NoFault token w)) !! "j1"
         = Some job
       ∧ AudioJob.input_audio_path job = Some "/app/data/input_j1.wav"
       ∧ Fs.read
           (Orchestrator.storage
              (fst (Orchestrator.process_audio req "j1" NoFault token w)))
           "/app/data/input_j1.wav" = Some [Byte.x41]).
Proof.
  intros req token w. split.
  - destruct (process_audio_persists_input_first req "j1"
                (ConnectError "refused")
                (Orchestrator.mkClaims (Some "alice") (Some "user")) w eq_refl)
      as [Hfail _].
    destruct Hfail as (e & He & Hcode & Hjobs & _); [discriminate|].
    exists e. repeat split; assumption.
  - destruct (process_audio_persists_input_first req "j1" NoFault
                (Orchestrator.mkClaims (Some "alice") (Some "user")) w eq_refl)
      as [_ Hok].
    destruct (Hok (Orchestrator.mkSubmit "j1"
                     "Job accepted, processing in background.") eq_refl)
      as (path & bytes & job & _ & Hjob & Hpath & Hdec & Hread).
    exists job. split; [exact Hjob|].
    assert (bytes = [Byte.x41]) as -> by (vm_compute in Hdec; congruence).
    assert (path = "/app/data/input_j1.wav") as ->.
    { vm_compute in Hjob. injection Hjob as <-. vm_compute in Hpath. congruence. }
    split; [exact Hpath | exact Hread].
Defined.

(** C4, as stated, fails: a submission for a capability without a worker is
    rejected at once when it carries input audio and its upload fails. *)
Lemma unknown_capability_rejected_when_upload_fails :
  ¬ (∀ (req : AudioProcessRequest.t) (job_id : string) (f : Fault)
       (c : Orchestrator.Claims) (w : Orchestrator.World),
       Orchestrator.WORKER_SERVICES !! AudioProcessRequest.capability req = None →
       Orchestrator.jobs_db w !! job_id = None →
       ∃ body,
         snd (Orchestrator.process_audio req job_id f
                (Orchestrator.DecodedClaims c) w) = inr body).
Proof.
  intros H.
  destruct (H (AudioProcessRequest.mk "alice" (Some "QQ==") None
                 "voice_changer" "m" None)
              "j1" (ConnectError "refused")
              (Orchestrator.mkClaims (Some "alice") (Some "user"))
              (Orchestrator.initial (Fs.mk ∅ {[ "/app"; "/app/data" ]} "/app") ∅)
              eq_refl eq_refl) as [body Hbody].
  vm_compute in Hbody. discriminate.
Qed.

(** C4, amended. An authenticated submission whose capability has no
    registered worker, and which carries no input audio or whose input upload
    returns 200, is accepted: [process_audio] answers with the job id, the
    job is stored as "pending" and its task is scheduled.  Whenever that task
    is resumed from its start in a world that still holds the job, the job
    is moved to "failed" with [metadata["error"]] naming the capability, and
    the task ends. *)
Theorem unknown_capability_fails_asynchronously
    (req : AudioProcessRequest.t) (job_id : string) (f : Fault)
    (c : Orchestrator.Claims) (w : Orchestrator.World) :
  Orchestrator.WORKER_SERVICES !! AudioProcessRequest.capability req = None →
  (Py.truthy_opt (AudioProcessRequest.input_audio_b64 req) = false
   ∨ ∃ body,
       snd (call f
              (Storage.upload_audio (AudioProcessRequest.user_id req)
                 (Py.str_opt (AudioProcessRequest.input_audio_b64 req))
                 (Some ("input_" +:+ job_id +:+ ".wav")) "")
              (Orchestrator.storage w)) = Returned (Ok200 body)) →
  let submitted :=
    Orchestrator.process_audio req job_id f (Orchestrator.DecodedClaims c) w in
  snd submitted
    = inr (Orchestrator.mkSubmit job_id "Job accepted, processing in background.")
  ∧ Orchestrator.polled_status job_id (fst submitted) = Some "pending"
  ∧ Orchestrator.background_tasks (fst submitted)
      = (Orchestrator.background_tasks w
           ++ [Orchestrator.mkTask job_id req Orchestrator.AtStart])%list
  ∧ ∀ (w2 : Orchestrator.World) (i : nat)
      (reply : Outcome AudioProcessResponse.t) (f' : Fault) (job : AudioJob.t),
      Orchestrator.background_tasks w2 !! i
        = Some (Orchestrator.mkTask job_id req Orchestrator.AtStart) →
      Orchestrator.jobs_db w2 !! job_id = Some job →
      let w3 := Orchestrator.resume i reply f' w2 in
      ∃ job',
        Orchestrator.jobs_db w3 !! job_id = Some job'
        ∧ AudioJob.status job' = "failed"
        ∧ AudioJob.metadata job' !! "error"
            = Some (Py.AStr ("No worker found for capability: "
                               +:+ AudioProcessRequest.capability req))
        ∧ Orchestrator.background_tasks w3 !! i
            = Some (Orchestrator.mkTask job_id req Orchestrator.Finished).
Proof.
  intros Hcap Hup submitted.
  assert (∃ w1 job,
            submitted
              = (w1, inr (Orchestrator.mkSubmit job_id
                            "Job accepted, processing in background."))
            ∧ Orchestrator.jobs_db w1 !! job_id = Some job
            ∧ AudioJob.status job = "pending"
            ∧ Orchestrator.background_tasks w1
                = (Orchestrator.background_tasks w
                     ++ [Orchestrator.mkTask job_id req Orchestrator.AtStart])%list)
    as (w1 & job1 & Hsub & Hjob1 & Hst1 & Htasks1).
  { subst submitted. unfold Orchestrator.process_audio.
    cbn [Orchestrator.get_current_user_orchestrator].
    destruct Hup as [Hno|[body Hbody]].
    - rewrite Hno. eexists _, _. split; [reflexivity|]. cbn.
      split; [apply lookup_insert_eq|]. split; reflexivity.
    - destruct (Py.truthy_opt _).
      + unfold Orchestrator.upload, Orchestrator.request.
        cbn [Orchestrator.storage Orchestrator.emit].
        destruct (call f _ (Orchestrator.storage w)) as [fs' o].
        cbn [snd] in Hbody. subst o. eexists _, _. split; [reflexivity|]. cbn.
        split; [apply lookup_insert_eq|]. split; reflexivity.
      + eexists _, _. split; [reflexivity|]. cbn.
        split; [apply lookup_insert_eq|]. split; reflexivity. }
  rewrite Hsub. cbn [fst snd]. split; [reflexivity|].
  split; [unfold Orchestrator.polled_status; rewrite Hjob1, <- Hst1; reflexivity|].
  split; [exact Htasks1|].
  intros w2 i reply f' job Htask Hjob.
  unfold Orchestrator.resume. rewrite Htask.
  unfold Orchestrator.segment. cbn [Orchestrator.task_pc Orchestrator.task_job_id
    Orchestrator.task_req]. unfold Orchestrator.segment_start.
  rewrite Hjob, Hcap. cbn [Py.truthy_opt negb].
  unfold Orchestrator.fail_job, Orchestrator.update_job. cbn.
  rewrite lookup_alter_eq, Hjob. cbn. eexists. split; [reflexivity|]. cbn.
  split; [reflexivity|]. split; [apply lookup_insert_eq|].
  apply list_lookup_insert_eq. apply lookup_lt_Some in Htask. exact Htask.
Qed.

Lemma unknown_capability_fails_asynchronously_witness :
  let req :=
    AudioProcessRequest.mk "alice" None (Some "hello") "voice_changer" "m" None in
  let token :=
    Orchestrator.DecodedClaims
      (Orchestrator.mkClaims (Some "alice") (Some "user")) in
  let w := Orchestrator.initial (Fs.mk ∅ {[ "/app"; "/app/data" ]} "/app") ∅ in
  let w1 := fst (Orchestrator.process_audio req "j1" NoFault token w) in
  let w2 := Orchestrator.resume 0 (Raised "unused") NoFault w1 in
  Orchestrator.polled_status "j1" w1 = Some "pending"
  ∧ ∃ job',
      Orchestrator.jobs_db w2 !! "j1" = Some job'
      ∧ AudioJob.status job' = "failed"
      ∧ AudioJob.metadata job' !! "error"
          = Some (Py.AStr "No worker found for capability: voice_changer").
Proof.
  intros req token w w1 w2.
  destruct (unknown_capability_fails_asynchronously req "j1" NoFault
              (Orchestrator.mkClaims (Some "alice") (Some "user")) w
              eq_refl (or_introl eq_refl))
    as (_ & Hpending & Htasks & Hlater).
  split; [exact Hpending|].
  destruct (Hlater w1 0%nat (Raised "unused") NoFault
              (AudioJob.mk "j1" "alice" None None "voice_changer" "m"
                 "pending" ∅))
    as (job' & Hjob' & Hst & Herr & _).
  - reflexivity.
  - apply lookup_insert_eq.
  - exists job'. repeat split; assumption.
Defined.

(** ** Orchestrator: billing a download *)

Section Billing.
Import Orchestrator.

Variables (output_audio_path user_id : string) (f : DownloadFaults).


(** A 402 answer of the payment service surfaces as 402. *)
Lemma download_except_insufficient_funds (text : string) :
  download_except (HTTPStatusError 402 text) = payment_required.
Proof. reflexivity. Qed.

(** The 402 raised inside the [try] block is caught by its last [except]
    clause and leaves the endpoint as a 500. *)
Lemma download_try_unpaid (w : World) (user : User.t) :
  on_status f = NoFault →
  users_db w !! user_id = Some user →
  User.paid_status user = false ∨ User.minutes_remaining user ≤ 0 →
  download_try output_audio_path user_id f w
    = (emit (CallAccountStatus user_id) w, inl (HTTPExc payment_required))
  ∧ status_code (download_except (HTTPExc payment_required)) = 500.
Proof.
  intros Hf Hu Hunpaid. split; [|reflexivity].
  destruct w as [jobs fs users tasks l]. cbn in Hu.
  unfold download_try, bind, account_status, request. rewrite Hf.
  cbn [emit users_db with_users log storage jobs_db background_tasks call].
  unfold UserManagement.get_account_status. rewrite Hu.
  cbn [UserManagement.as_paid_status UserManagement.as_minutes_remaining].
  destruct Hunpaid as [-> | Hle]; [reflexivity|].
  apply Z.leb_le in Hle. rewrite Hle, orb_true_r. reflexivity.
Qed.

End Billing.

(** C6, on the code: the owner of a completed job with stored output, whose
    account is unpaid with no minutes left, downloads it.  The account
    status is the only request sent, nothing is debited or fetched, and the
    endpoint answers 500 where the claim promises 402. *)
Theorem download_unpaid_answers_500 :
  let job :=
    AudioJob.mk "j1" "alice" None (Some "/app/data/output_j1.wav") "tts" "m"
      "completed" ∅ in
  let w :=
    Orchestrator.mkWorld {[ "j1" := job ]}
      (Fs.mk {[ "/app/data/output_j1.wav" := [Byte.x41] ]}
             {[ "/app"; "/app/data" ]} "/app")
      {[ "alice" := User.mk "alice" "alice" "a@example.com" "pw" "user" false 0 ]}
      [] [] in
  let r :=
    Orchestrator.download_audio "j1" "alice"
      (Orchestrator.mkFaults NoFault NoFault NoFault NoFault)
      (Orchestrator.DecodedClaims
         (Orchestrator.mkClaims (Some "alice") (Some "user"))) w in
  (∃ e, snd r = inl e ∧ status_code e = 500)
  ∧ Orchestrator.log (fst r) = [Orchestrator.CallAccountStatus "alice"]
  ∧ Orchestrator.users_db (fst r) = Orchestrator.users_db w
  ∧ Orchestrator.storage (fst r) = Orchestrator.storage w.
Proof.
  intros job w r. split; [|repeat split; vm_compute; reflexivity].
  eexists. split; vm_compute; reflexivity.
Qed.

(** ** Storage service: paths outside the storage root *)

(** What the check of [download_audio] refuses is refused before the file
    system is consulted. *)
Lemma download_audio_refused (file_path user_id : string) (fs : Fs.t) :
  Storage.traversal_check fs (PosixPath.join Storage.STORAGE_DIR file_path)
    = false →
  Storage.download_audio file_path user_id fs
    = (fs, raise (mkExc 400 "Invalid file path.")).
Proof. intros H. unfold Storage.download_audio. rewrite H. reflexivity. Qed.

(** C3, on the code: [upload_audio] has no check.  With the file name
    [../evil.wav] it answers 200 and writes [/app/evil.wav], a path that does
    not lie under [/app/data]. *)
Theorem upload_audio_writes_outside_root :
  let fs := Fs.mk ∅ {[ "/app"; "/app/data" ]} "/app" in
  let r := Storage.upload_audio "mallory" "QQ==" (Some "../evil.wav") "" fs in
  snd r = Ok200 (Storage.mkUpload "Audio uploaded successfully (dummy)"
                   "/app/data/../evil.wav")
  ∧ PosixPath.abspath "/app" "/app/data/../evil.wav" = "/app/evil.wav"
  ∧ Storage.traversal_check fs "/app/data/../evil.wav" = false
  ∧ Fs.files fs !! "/app/evil.wav" = None
  ∧ Fs.files (fst r) !! "/app/evil.wav" = Some [Byte.x41].
Proof. intros fs r. repeat split; vm_compute; reflexivity. Qed.

(** The check of [download_audio] compares strings, not path components: a
    sibling directory whose name extends that of the root passes it. *)
Lemma download_audio_reads_sibling_directory :
  let fs :=
    Fs.mk {[ "/app/database/secret.wav" := [Byte.x41] ]}
          {[ "/app"; "/app/data"; "/app/database" ]} "/app" in
  PosixPath.abspath "/app"
      (PosixPath.join Storage.STORAGE_DIR "../database/secret.wav")
    = "/app/database/secret.wav"
  ∧ Storage.download_audio "../database/secret.wav" "mallory" fs
    = (fs, Ok200 (Storage.mkDownload "QQ==")).
Proof. intros fs. split; vm_compute; reflexivity. Qed.

(** ** Orchestrator: the background task on concrete runs *)

(** C9, on the code: the speech-to-text worker of the repository answers
    "completed" with a transcription and no audio.  The job ends
    "completed", but the transcription is not recorded: the metadata has no
    ["output_text"] and the status query reports none. *)
Theorem stt_output_text_not_recorded :
  let req :=
    AudioProcessRequest.mk "alice" (Some "QQ==") None "stt" "whisper" None in
  let token :=
    Orchestrator.DecodedClaims
      (Orchestrator.mkClaims (Some "alice") (Some "user")) in
  let fs := Fs.mk ∅ {[ "/app"; "/app/data" ]} "/app" in
  let reply := Workers.process_stt req fs in
  let w1 :=
    Orchestrator.run (Orchestrator.Submit req "j1" NoFault token)
      (Orchestrator.initial fs ∅) in
  let w2 := Orchestrator.run (Orchestrator.Resume 0 (Returned reply) NoFault) w1 in
  let w3 := Orchestrator.run (Orchestrator.Resume 0 (Returned reply) NoFault) w2 in
  reply
    = Ok200 (AudioProcessResponse.mk "dummy_stt_job" "completed" None
               (Some "This is a dummy transcription.")
               (Some "Speech-to-text completed for model whisper"))
  ∧ Orchestrator.background_tasks w3
      = [Orchestrator.mkTask "j1" req Orchestrator.AwaitNotify]
  ∧ (∃ job, Orchestrator.jobs_db w3 !! "j1" = Some job
            ∧ AudioJob.status job = "completed"
            ∧ AudioJob.metadata job !! "output_text" = None)
  ∧ snd (Orchestrator.get_job_status "j1" "alice" token w3)
      = inr (Orchestrator.mkStatusBody "j1" "completed" false None None).
Proof.
  intros req token fs reply w1 w2 w3.
  split; [vm_compute; reflexivity|]. split; [vm_compute; reflexivity|].
  split; [eexists; repeat split; vm_compute; reflexivity|].
  vm_compute; reflexivity.
Qed.

(** C2, on the code: a job whose capability has no worker is failed by the
    early [return] of the task, which is not covered by the [finally] clause:
    the task has ended and no notification was sent. *)
Theorem unknown_capability_sends_no_notification :
  let req :=
    AudioProcessRequest.mk "alice" None (Some "hello") "voice_changer" "m" None in
  let token :=
    Orchestrator.DecodedClaims
      (Orchestrator.mkClaims (Some "alice") (Some "user")) in
  let w1 :=
    Orchestrator.run (Orchestrator.Submit req "j1" NoFault token)
      (Orchestrator.initial (Fs.mk ∅ {[ "/app"; "/app/data" ]} "/app") ∅) in
  let w2 :=
    Orchestrator.run (Orchestrator.Resume 0 (Raised "unused") NoFault) w1 in
  Orchestrator.polled_status "j1" w2 = Some "failed"
  ∧ Orchestrator.background_tasks w2
      = [Orchestrator.mkTask "j1" req Orchestrator.Finished]
  ∧ Orchestrator.log w2 = [Orchestrator.Scheduled "j1"]
  ∧ Orchestrator.notifications "j1" (Orchestrator.log w2) = [].
Proof. intros req token w1 w2. repeat split; vm_compute; reflexivity. Qed.

(** C1, on the code: the task marks the job "completed" before it uploads
    the output; when the upload fails, the job is marked "failed".  Polls
    between the segments of the task read pending, processing, completed,
    failed: the job has left a terminal state. *)
Theorem completed_job_becomes_failed :
  let req := AudioProcessRequest.mk "alice" None (Some "hello") "tts" "m" None in
  let token :=
    Orchestrator.DecodedClaims
      (Orchestrator.mkClaims (Some "alice") (Some "user")) in
  let fs := Fs.mk ∅ {[ "/app"; "/app/data" ]} "/app" in
  let reply := Returned (Workers.process_tts req fs) in
  let poll w :=
    match snd (Orchestrator.get_job_status "j1" "alice" token w) with
    | inr body => Some (Orchestrator.st_status body)
    | inl _ => None
    end in
  let w1 :=
    Orchestrator.run (Orchestrator.Submit req "j1" NoFault token)
      (Orchestrator.initial fs ∅) in
  let w2 := Orchestrator.run (Orchestrator.Resume 0 reply NoFault) w1 in
  let w3 := Orchestrator.run (Orchestrator.Resume 0 reply NoFault) w2 in
  let w4 :=
    Orchestrator.run (Orchestrator.Resume 0 reply (ConnectError "refused")) w3 in
  Orchestrator.reachable w4
  ∧ [poll w1; poll w2; poll w3; poll w4]
      = [Some "pending"; Some "processing"; Some "completed"; Some "failed"]
  ∧ Orchestrator.terminal "completed" = true.
Proof.
  intros req token fs reply poll w1 w2 w3 w4.
  split; [|split; vm_compute; reflexivity].
  apply (Orchestrator.reachable_step w3);
    [|apply (Orchestrator.step_run w3
                (Orchestrator.Resume 0 reply (ConnectError "refused")));
      exact I].
  apply (Orchestrator.reachable_step w2);
    [|apply (Orchestrator.step_run w2 (Orchestrator.Resume 0 reply NoFault));
      exact I].
  apply (Orchestrator.reachable_step w1);
    [|apply (Orchestrator.step_run w1 (Orchestrator.Resume 0 reply NoFault));
      exact I].
  apply (Orchestrator.reachable_step (Orchestrator.initial fs ∅));
    [apply Orchestrator.reachable_initial|].
  apply (Orchestrator.step_run _ (Orchestrator.Submit req "j1" NoFault token)).
  reflexivity.
Qed.

(** ** Orchestrator: what every reachable world satisfies *)

Section Invariant.
Import Orchestrator.

Lemma notifications_app (j : string) (l1 l2 : list Event) :
  notifications j (l1 ++ l2) = notifications j l1 ++ notifications j l2.
Proof. apply omap_app. Qed.

Lemma alter_present {A} (g : A → A) (k : string) (m : gmap string A) (x : A) :
  m !! k = Some x → alter g k m = <[k := g x]> m.
Proof.
  intros Hk. apply map_eq. intros k'. destruct (decide (k = k')) as [<-|Hne].
  - rewrite lookup_alter_eq, lookup_insert_eq, Hk. reflexivity.
  - rewrite lookup_alter_ne, lookup_insert_ne by assumption. reflexivity.
Qed.

Lemma update_job_present (id : string) (g : AudioJob.t → AudioJob.t)
    (w : World) (job : AudioJob.t) :
  jobs_db w !! id = Some job →
  update_job id g w
    = mkWorld (<[id := g job]> (jobs_db w)) (storage w) (users_db w)
              (background_tasks w) (log w).
Proof.
  intros Hj. unfold update_job, with_jobs. rewrite (alter_present _ _ _ _ Hj).
  reflexivity.
Qed.

Lemma notify_emits (id : string) (req : AudioProcessRequest.t) (w : World)
    (job : AudioJob.t) :
  jobs_db w !! id = Some job →
  ∃ n, notify id req w = emit (CallNotify id n) w
       ∧ Notification.notification_type n = kind_of (AudioJob.status job).
Proof.
  intros Hj. unfold notify. rewrite Hj. eexists. split; reflexivity.
Qed.

(** A job is updated and the notification of the [finally] clause is sent. *)
Lemma update_then_notify (id : string) (req : AudioProcessRequest.t)
    (g : AudioJob.t → AudioJob.t) (w : World) (job : AudioJob.t) :
  jobs_db w !! id = Some job →
  ∃ n, notify id req (update_job id g w)
       = mkWorld (<[id := g job]> (jobs_db w)) (storage w) (users_db w)
                 (background_tasks w) (log w ++ [CallNotify id n])
       ∧ Notification.notification_type n = kind_of (AudioJob.status (g job)).
Proof.
  intros Hj. rewrite (update_job_present _ _ _ _ Hj).
  destruct (notify_emits id req
              (mkWorld (<[id := g job]> (jobs_db w)) (storage w) (users_db w)
                       (background_tasks w) (log w)) (g job))
    as (n & Hn & Hk); [apply lookup_insert_eq|].
  exists n. split; [rewrite Hn; reflexivity | exact Hk].
Qed.

Lemma notifications_notify (id j : string) (n : Notification.t) :
  notifications j [CallNotify id n] = if bool_decide (id = j) then [n] else [].
Proof. cbn. destruct (bool_decide (id = j)); reflexivity. Qed.


Lemma notifications_self (id : string) (n : Notification.t) :
  notifications id [CallNotify id n] = [n].
Proof. rewrite notifications_notify, bool_decide_eq_true_2; reflexivity. Qed.

Lemma notifications_other (id j : string) (n : Notification.t) :
  j ≠ id → notifications j [CallNotify id n] = [].
Proof.
  intros H. rewrite notifications_notify, bool_decide_eq_false_2; congruence.
Qed.

Lemma status_rank_terminal (s s' : string) :
  s' = "completed" ∨ s' = "failed" → (status_rank s ≤ status_rank s')%nat.
Proof.
  intros [-> | ->]; unfold status_rank; repeat case_bool_decide;
    first [discriminate | lia].
Qed.

(** The [finally] clause after an update [g] of the job that leaves it
    terminal, in a task that has not sent its notification. *)
Lemma finally_spec (id : string) (req : AudioProcessRequest.t)
    (g : AudioJob.t → AudioJob.t) (w : World) (job : AudioJob.t) (pc : Pc) :
  jobs_db w !! id = Some job →
  AudioJob.status (g job) = "completed" ∨ AudioJob.status (g job) = "failed" →
  (AudioJob.status job = "failed" → AudioJob.status (g job) = "failed") →
  AudioJob.user_id (g job) = AudioJob.user_id job →
  (∀ ns, notified pc (AudioProcessRequest.capability req)
           (AudioJob.status job) ns →
         ns = [] ∧ registered (AudioProcessRequest.capability req)) →
  ∃ evs,
    notify id req (update_job id g w)
      = mkWorld (<[id := g job]> (jobs_db w)) (storage w) (users_db w)
                (background_tasks w) (log w ++ evs)
    ∧ pc_status_ok AwaitNotify (AudioJob.status (g job))
    ∧ (status_rank (AudioJob.status job)
         ≤ status_rank (AudioJob.status (g job)))%nat
    ∧ (AudioJob.status job = "failed" → AudioJob.status (g job) = "failed")
    ∧ AudioJob.user_id (g job) = AudioJob.user_id job
    ∧ (∀ j, j ≠ id → notifications j evs = [])
    ∧ (∀ ns,
         notified pc (AudioProcessRequest.capability req)
           (AudioJob.status job) ns →
         notified AwaitNotify (AudioProcessRequest.capability req)
           (AudioJob.status (g job)) (ns ++ notifications id evs)).
Proof.
  intros Hjob Hterm Hfailed Huid Hnone.
  destruct (update_then_notify id req g w job Hjob) as (n & Hn & Hkind).
  exists [CallNotify id n]. split; [exact Hn|]. split; [exact Hterm|].
  split; [apply status_rank_terminal, Hterm|]. split; [exact Hfailed|].
  split; [exact Huid|].
  split; [intros j Hj; apply notifications_other, Hj|].
  intros ns Hns. destruct (Hnone ns Hns) as [-> Hreg].
  rewrite notifications_self. split; [exact Hreg|].
  exists n. split; [reflexivity | exact Hkind].
Qed.

(** One segment of a task, for a job that is stored and has the status its
    task expects: only that job, the storage and the log change; the status
    does not go back; and the notifications follow [notified]. *)
Lemma segment_spec (t : Task) (reply : Outcome AudioProcessResponse.t)
    (f : Fault) (w : World) (job : AudioJob.t) :
  jobs_db w !! task_job_id t = Some job →
  pc_status_ok (task_pc t) (AudioJob.status job) →
  ∃ job' evs fs' pc',
    segment t reply f w
      = (mkWorld (<[task_job_id t := job']> (jobs_db w)) fs' (users_db w)
                 (background_tasks w) (log w ++ evs), pc')
    ∧ pc_status_ok pc' (AudioJob.status job')
    ∧ (status_rank (AudioJob.status job)
         ≤ status_rank (AudioJob.status job'))%nat
    ∧ (AudioJob.status job = "failed" → AudioJob.status job' = "failed")
    ∧ AudioJob.user_id job' = AudioJob.user_id job
    ∧ (∀ j, j ≠ task_job_id t → notifications j evs = [])
    ∧ (∀ ns,
         notified (task_pc t) (AudioProcessRequest.capability (task_req t))
           (AudioJob.status job) ns →
         notified pc' (AudioProcessRequest.capability (task_req t))
           (AudioJob.status job') (ns ++ notifications (task_job_id t) evs)).
Proof.
  destruct t as [id req pc]. cbn [task_job_id task_pc task_req].
  intros Hjob Hpc. unfold segment. cbn [task_job_id task_pc task_req].
  destruct w as [jobs fs users tasks l].
  cbn [jobs_db storage users_db background_tasks log] in *.
  assert (∀ fs0 g pc0,
            (pc0 = AwaitWorker ∨ ∃ out, pc0 = AwaitStore out) →
            AudioJob.status (g job) = "completed"
              ∨ AudioJob.status (g job) = "failed" →
            (AudioJob.status job = "failed" → AudioJob.status (g job) = "failed") →
            AudioJob.user_id (g job) = AudioJob.user_id job →
            ∃ job' evs fs' pc',
              (notify id req (update_job id g (mkWorld jobs fs0 users tasks l)),
               AwaitNotify)
                = (mkWorld (<[id := job']> jobs) fs' users tasks (l ++ evs), pc')
              ∧ pc_status_ok pc' (AudioJob.status job')
              ∧ (status_rank (AudioJob.status job)
                   ≤ status_rank (AudioJob.status job'))%nat
              ∧ (AudioJob.status job = "failed" →
                 AudioJob.status job' = "failed")
              ∧ AudioJob.user_id job' = AudioJob.user_id job
              ∧ (∀ j, j ≠ id → notifications j evs = [])
              ∧ (∀ ns,
                   notified pc0 (AudioProcessRequest.capability req)
                     (AudioJob.status job) ns →
                   notified pc' (AudioProcessRequest.capability req)
                     (AudioJob.status job')
                     (ns ++ notifications id evs))) as Hfinally.
  { intros fs0 g pc0 Hpc0 Hterm Hfailed Huid.
    destruct (finally_spec id req g (mkWorld jobs fs0 users tasks l) job pc0
                Hjob Hterm Hfailed Huid) as (evs & -> & Hrest).
    - destruct Hpc0 as [-> | [out ->]]; intros ns Hns; exact Hns.
    - exists (g job), evs, fs0, AwaitNotify.
      split; [reflexivity | exact Hrest]. }
  destruct pc as [| |out| |].
  - (* AtStart *)
    cbn in Hpc. unfold segment_start. cbn [jobs_db]. rewrite Hjob.
    destruct (Py.truthy_opt _) eqn:Hurl; cbn [negb].
    + rewrite (update_job_present id _ (mkWorld jobs fs users tasks l) job Hjob).
      exists (AudioJob.set_status "processing" job),
        [CallWorker id (AudioProcessRequest.capability req)], fs, AwaitWorker.
      split; [reflexivity|]. rewrite Hpc. cbn.
      split; [reflexivity|]. split; [vm_compute; lia|]. split; [discriminate|].
      split; [reflexivity|].
      split; [reflexivity|]. intros ns ->. split; [reflexivity | exact Hurl].
    + unfold fail_job. rewrite (update_job_present id _ (mkWorld jobs fs users tasks l) job Hjob).
      eexists _, [], fs, Finished.
      split; [cbn; rewrite app_nil_r; reflexivity|]. rewrite Hpc. cbn.
      split; [by right|]. split; [vm_compute; lia|]. split; [reflexivity|].
      split; [reflexivity|].
      split; [reflexivity|]. intros ns ->. left.
      split; [reflexivity | unfold registered; rewrite Hurl; discriminate].
  - (* AwaitWorker *)
    cbn in Hpc. unfold segment_worker, fail_job.
    destruct reply as [[worker_output|code text]|e].
    + destruct (bool_decide _).
      * destruct (Py.truthy_opt _).
        -- rewrite (update_job_present id _ (mkWorld jobs fs users tasks l) job Hjob).
           eexists (AudioJob.set_status "completed" job), [_], fs,
             (AwaitStore worker_output).
           split; [reflexivity|]. rewrite Hpc. cbn.
           split; [reflexivity|]. split; [vm_compute; lia|].
           split; [discriminate|]. split; [reflexivity|].
           split; [reflexivity|].
           intros ns [-> Hreg]. split; [reflexivity | exact Hreg].
        -- apply Hfinally; [by left | by left | rewrite Hpc; discriminate | reflexivity].
      * apply Hfinally; [by left | by right | reflexivity | reflexivity].
    + apply Hfinally; [by left | by right | reflexivity | reflexivity].
    + apply Hfinally; [by left | by right | reflexivity | reflexivity].
  - (* AwaitStore *)
    cbn in Hpc. unfold segment_store, fail_job. cbn [storage].
    destruct (call f _ fs) as [fs1 [[body|code text]|e]];
      cbn [with_storage jobs_db storage users_db background_tasks log].
    + apply Hfinally; [right; eauto | left; exact Hpc | rewrite Hpc; discriminate
                      | reflexivity].
    + apply Hfinally; [right; eauto | by right | reflexivity | reflexivity].
    + apply Hfinally; [right; eauto | by right | reflexivity | reflexivity].
  - (* AwaitNotify *)
    exists job, [], fs, Finished.
    split; [rewrite app_nil_r, (insert_id _ _ _ Hjob); reflexivity|].
    split; [exact Hpc|]. split; [lia|]. split; [tauto|].
    split; [reflexivity|].
    split; [reflexivity|]. intros ns Hns. rewrite app_nil_r. right. exact Hns.
  - (* Finished *)
    exists job, [], fs, Finished.
    split; [rewrite app_nil_r, (insert_id _ _ _ Hjob); reflexivity|].
    split; [exact Hpc|]. split; [lia|]. split; [tauto|].
    split; [reflexivity|].
    split; [reflexivity|]. intros ns Hns. rewrite app_nil_r. exact Hns.
Qed.

Lemma consistent_initial (fs : Fs.t) (users : gmap string User.t) :
  consistent (initial fs users).
Proof.
  split; cbn.
  - intros i t Ht. rewrite lookup_nil in Ht. discriminate.
  - intros i j t t' Ht. rewrite lookup_nil in Ht. discriminate.
  - intros j job Hj. rewrite lookup_empty in Hj. discriminate.
  - reflexivity.
Qed.

(** An operation that changes neither the jobs, nor the tasks, nor the
    notifications sent keeps the world consistent. *)
Lemma consistent_frame (w w' : World) :
  jobs_db w' = jobs_db w → background_tasks w' = background_tasks w →
  (∀ j, notifications j (log w') = notifications j (log w)) →
  consistent w → consistent w'.
Proof.
  intros Hj Ht Hn [H1 H2 H3 H4]. split.
  - intros i t Hi. rewrite Ht in Hi. rewrite Hj, Hn. exact (H1 i t Hi).
  - rewrite Ht. exact H2.
  - rewrite Hj, Ht. exact H3.
  - intros j. rewrite Hj, Hn. apply H4.
Qed.

(** Resuming a task keeps the world consistent, and no status goes back. *)
Lemma resume_spec (i : nat) (reply : Outcome AudioProcessResponse.t)
    (f : Fault) (w : World) :
  consistent w →
  consistent (resume i reply f w)
  ∧ ∀ j job, jobs_db w !! j = Some job →
      ∃ job', jobs_db (resume i reply f w) !! j = Some job'
              ∧ (status_rank (AudioJob.status job)
                   ≤ status_rank (AudioJob.status job'))%nat
              ∧ (AudioJob.status job = "failed" →
                 AudioJob.status job' = "failed")
              ∧ AudioJob.user_id job' = AudioJob.user_id job.
Proof.
  intros Hc. unfold resume.
  destruct (background_tasks w !! i) as [t|] eqn:Hi.
  2:{ split; [exact Hc|]. intros j job Hj. exists job.
      split; [exact Hj|]. split; [lia|]. split; [tauto | reflexivity]. }
  destruct (task_job w Hc i t Hi) as (job & Hjob & Hpc & Hnot).
  destruct (segment_spec t reply f w job Hjob Hpc)
    as (job' & evs & fs' & pc' & -> & Hpc' & Hrank & Hfail & Huid & Hothers
        & Hnot').
  unfold with_tasks. cbn [jobs_db storage users_db background_tasks log].
  split.
  - split; cbn [jobs_db storage users_db background_tasks log].
    + intros i0 t0 Hi0. destruct (decide (i0 = i)) as [->|Hne].
      * rewrite list_lookup_insert_eq in Hi0
          by (apply lookup_lt_Some in Hi; exact Hi).
        injection Hi0 as <-. cbn [task_job_id task_pc task_req].
        exists job'. split; [apply lookup_insert_eq|]. split; [exact Hpc'|].
        rewrite notifications_app. apply Hnot', Hnot.
      * rewrite list_lookup_insert_ne in Hi0 by congruence.
        destruct (task_job w Hc i0 t0 Hi0) as (job0 & Hjob0 & Hpc0 & Hnot0).
        assert (task_job_id t0 ≠ task_job_id t) as Hid.
        { intros Heq. apply Hne. exact (task_unique w Hc i0 i t0 t Hi0 Hi Heq). }
        exists job0. split; [rewrite lookup_insert_ne by congruence; exact Hjob0|].
        split; [exact Hpc0|].
        rewrite notifications_app, (Hothers _ Hid), app_nil_r. exact Hnot0.
    + intros i1 i2 t1 t2 H1 H2 Heq.
      assert (∀ k tk, <[i := mkTask (task_job_id t) (task_req t) pc']>
                        (background_tasks w) !! k = Some tk →
                      ∃ tk', background_tasks w !! k = Some tk'
                             ∧ task_job_id tk' = task_job_id tk) as Hold.
      { intros k tk Hk. destruct (decide (k = i)) as [->|Hne].
        - rewrite list_lookup_insert_eq in Hk
            by (apply lookup_lt_Some in Hi; exact Hi).
          injection Hk as <-. exists t. split; [exact Hi | reflexivity].
        - rewrite list_lookup_insert_ne in Hk by congruence.
          exists tk. split; [exact Hk | reflexivity]. }
      destruct (Hold _ _ H1) as (t1' & H1' & E1).
      destruct (Hold _ _ H2) as (t2' & H2' & E2).
      apply (task_unique w Hc i1 i2 t1' t2' H1' H2'). congruence.
    + intros j job0 Hj0. destruct (decide (j = task_job_id t)) as [->|Hne].
      * exists i, (mkTask (task_job_id t) (task_req t) pc').
        split; [|reflexivity]. apply list_lookup_insert_eq.
        apply lookup_lt_Some in Hi. exact Hi.
      * rewrite lookup_insert_ne in Hj0 by congruence.
        destruct (job_task w Hc j job0 Hj0) as (i0 & t0 & Hi0 & Hid0).
        exists i0, t0. split; [|exact Hid0].
        rewrite list_lookup_insert_ne; [exact Hi0|].
        intros <-. apply Hne. rewrite <- Hid0. congruence.
    + intros j Hj. destruct (decide (j = task_job_id t)) as [->|Hne].
      * rewrite lookup_insert_eq in Hj. discriminate.
      * rewrite lookup_insert_ne in Hj by congruence.
        rewrite notifications_app, (unknown_silent w Hc j Hj), (Hothers j Hne).
        reflexivity.
  - intros j job0 Hj0. destruct (decide (j = task_job_id t)) as [->|Hne].
    + rewrite Hjob in Hj0. injection Hj0 as <-. exists job'.
      split; [apply lookup_insert_eq|]. repeat split; assumption.
    + exists job0. split; [rewrite lookup_insert_ne by congruence; exact Hj0|].
      split; [lia|]. split; [tauto | reflexivity].
Qed.

(** A request to a collaborator changes neither the jobs nor the tasks, and
    adds its event to the log. *)
Lemma request_frame {S A : Type} (ev : Event) (proj : World → S)
    (inj : S → World → World) (f : Fault) (h : S → S * Response A) (w : World) :
  (∀ s w0, jobs_db (inj s w0) = jobs_db w0
           ∧ background_tasks (inj s w0) = background_tasks w0
           ∧ log (inj s w0) = log w0) →
  jobs_db (fst (request ev proj inj f h w)) = jobs_db w
  ∧ background_tasks (fst (request ev proj inj f h w)) = background_tasks w
  ∧ log (fst (request ev proj inj f h w)) = log w ++ [ev].
Proof.
  intros Hinj. unfold request.
  destruct (call f h (proj (emit ev w))) as [s' o].
  destruct (Hinj s' (emit ev w)) as (Hj & Ht & Hl).
  destruct o as [[body|code text]|e]; cbn [fst]; rewrite Hj, Ht, Hl;
    repeat split; reflexivity.
Qed.

Lemma with_storage_frame (s : Fs.t) (w : World) :
  jobs_db (with_storage s w) = jobs_db w
  ∧ background_tasks (with_storage s w) = background_tasks w
  ∧ log (with_storage s w) = log w.
Proof. repeat split; reflexivity. Qed.

Lemma with_users_frame (s : gmap string User.t) (w : World) :
  jobs_db (with_users s w) = jobs_db w
  ∧ background_tasks (with_users s w) = background_tasks w
  ∧ log (with_users s w) = log w.
Proof. repeat split; reflexivity. Qed.

(** Storing a job under a fresh identifier and scheduling its task. *)
Lemma accept_spec (job_id : string) (req : AudioProcessRequest.t)
    (job : AudioJob.t) (w : World) :
  consistent w → jobs_db w !! job_id = None → AudioJob.status job = "pending" →
  consistent (fst (accept job_id req job w))
  ∧ ∀ j job0, jobs_db w !! j = Some job0 →
      jobs_db (fst (accept job_id req job w)) !! j = Some job0.
Proof.
  intros Hc Hfresh Hst. unfold accept, emit, with_tasks, with_jobs.
  cbn [fst jobs_db storage users_db background_tasks log].
  assert (∀ j, notifications j (log w ++ [Scheduled job_id])
               = notifications j (log w)) as Hlog.
  { intros j. rewrite notifications_app. apply app_nil_r. }
  split.
  - split; cbn [jobs_db storage users_db background_tasks log].
    + intros i t Hi. rewrite Hlog. apply lookup_app_Some in Hi as [Hi|[_ Hi]].
      * destruct (task_job w Hc i t Hi) as (job0 & Hjob0 & Hrest).
        exists job0. split; [|exact Hrest].
        rewrite lookup_insert_ne; [exact Hjob0|]. intros Heq. congruence.
      * apply list_lookup_singleton_Some in Hi as [_ <-].
        cbn [task_job_id task_pc task_req]. exists job.
        split; [apply lookup_insert_eq|]. split; [exact Hst|].
        apply (unknown_silent w Hc job_id Hfresh).
    + assert (∀ k tk, (background_tasks w ++ [mkTask job_id req AtStart]) !! k
                        = Some tk →
                      (background_tasks w !! k = Some tk
                       ∧ task_job_id tk ≠ job_id)
                      ∨ (k = length (background_tasks w)
                         ∧ task_job_id tk = job_id)) as Hcases.
      { intros k tk Hk. apply lookup_app_Some in Hk as [Hk|[Hge Hk]].
        - left. split; [exact Hk|].
          destruct (task_job w Hc k tk Hk) as (job0 & Hjob0 & _). congruence.
        - right. apply list_lookup_singleton_Some in Hk as [Hz <-].
          split; [lia | reflexivity]. }
      intros i1 i2 t1 t2 H1 H2 Heq.
      destruct (Hcases _ _ H1) as [[H1' N1]|[-> E1]],
               (Hcases _ _ H2) as [[H2' N2]|[-> E2]]; try congruence.
      apply (task_unique w Hc i1 i2 t1 t2 H1' H2' Heq).
    + intros j job0 Hj0. destruct (decide (j = job_id)) as [->|Hne].
      * exists (length (background_tasks w)), (mkTask job_id req AtStart).
        split; [|reflexivity].
        rewrite lookup_app_r, Nat.sub_diag by lia. reflexivity.
      * rewrite lookup_insert_ne in Hj0 by congruence.
        destruct (job_task w Hc j job0 Hj0) as (i & t & Hi & Hid).
        exists i, t. split; [|exact Hid]. apply lookup_app_l_Some, Hi.
    + intros j Hj. rewrite Hlog. apply (unknown_silent w Hc).
      destruct (decide (j = job_id)) as [->|Hne].
      * rewrite lookup_insert_eq in Hj. discriminate.
      * rewrite lookup_insert_ne in Hj by congruence. exact Hj.
  - intros j job0 Hj0. rewrite lookup_insert_ne; [exact Hj0|].
    intros Heq. congruence.
Qed.

Lemma process_audio_spec (req : AudioProcessRequest.t) (job_id : string)
    (f : Fault) (token : Decoded) (w : World) :
  consistent w → jobs_db w !! job_id = None →
  consistent (fst (process_audio req job_id f token w))
  ∧ ∀ j job0, jobs_db w !! j = Some job0 →
      jobs_db (fst (process_audio req job_id f token w)) !! j = Some job0.
Proof.
  intros Hc Hfresh. unfold process_audio.
  destruct (get_current_user_orchestrator token) as [e|user_info];
    [split; [exact Hc | tauto]|].
  destruct (Py.truthy_opt _); [|apply accept_spec; done].
  unfold upload.
  match goal with
  | |- context [request ?ev ?proj ?inj f ?h w] =>
      destruct (request_frame ev proj inj f h w with_storage_frame)
        as (Hj & Ht & Hl);
      destruct (request ev proj inj f h w) as [w1 r]
  end.
  cbn [fst] in Hj, Ht, Hl.
  assert (consistent w1) as Hc1.
  { apply (consistent_frame w); [exact Hj | exact Ht | | exact Hc].
    intros j. rewrite Hl, notifications_app. apply app_nil_r. }
  destruct r as [[code text|e|e]|store_resp].
  - split; [exact Hc1|]. cbn [fst]. rewrite Hj. tauto.
  - split; [exact Hc1|]. cbn [fst]. rewrite Hj. tauto.
  - split; [exact Hc1|]. cbn [fst]. rewrite Hj. tauto.
  - rewrite <- Hj in Hfresh.
    destruct (accept_spec job_id req
                (AudioJob.set_input_audio_path (Storage.file_path store_resp)
                   (AudioJob.mk job_id (AudioProcessRequest.user_id req) None
                      None (AudioProcessRequest.capability req)
                      (AudioProcessRequest.model_name req) "pending"
                      (default ∅ (AudioProcessRequest.parameters req))))
                w1 Hc1 Hfresh eq_refl) as [Hc2 Hkeep].
    split; [exact Hc2|]. intros j job0 Hj0. apply Hkeep. rewrite Hj. exact Hj0.
Qed.

Lemma download_try_frame (output_audio_path user_id : string)
    (f : DownloadFaults) (w : World) :
  let w' := fst (download_try output_audio_path user_id f w) in
  jobs_db w' = jobs_db w ∧ background_tasks w' = background_tasks w
  ∧ ∀ j, notifications j (log w') = notifications j (log w).
Proof.
  unfold download_try, bind, account_status, debit, fetch.
  match goal with
  | |- context [request ?ev ?proj ?inj ?f0 ?h w] =>
      destruct (request_frame ev proj inj f0 h w with_users_frame)
        as (Hj1 & Ht1 & Hl1);
      destruct (request ev proj inj f0 h w) as [w1 r1]
  end.
  cbn [fst] in Hj1, Ht1, Hl1.
  assert (∀ j, notifications j (log w1) = notifications j (log w)) as Hn1.
  { intros j. rewrite Hl1, notifications_app. apply app_nil_r. }
  destruct r1 as [e|user_status]; [cbn; auto|].
  destruct (_ || _); [cbn; auto|].
  match goal with
  | |- context [request ?ev ?proj ?inj ?f0 ?h w1] =>
      destruct (request_frame ev proj inj f0 h w1 with_users_frame)
        as (Hj2 & Ht2 & Hl2);
      destruct (request ev proj inj f0 h w1) as [w2 r2]
  end.
  cbn [fst] in Hj2, Ht2, Hl2.
  assert (∀ j, notifications j (log w2) = notifications j (log w)) as Hn2.
  { intros j. rewrite Hl2, notifications_app, Hn1. apply app_nil_r. }
  destruct r2 as [e|paid]; [cbn; rewrite Hj2, Ht2; auto|].
  match goal with
  | |- context [request ?ev ?proj ?inj ?f0 ?h w2] =>
      destruct (request_frame ev proj inj f0 h w2 with_storage_frame)
        as (Hj3 & Ht3 & Hl3);
      destruct (request ev proj inj f0 h w2) as [w3 r3]
  end.
  cbn [fst] in Hj3, Ht3, Hl3.
  assert (∀ j, notifications j (log w3) = notifications j (log w)) as Hn3.
  { intros j. rewrite Hl3, notifications_app, Hn2. apply app_nil_r. }
  destruct r3 as [e|audio_data]; cbn; rewrite Hj3, Ht3, Hj2, Ht2; auto.
Qed.

Lemma download_audio_frame (job_id user_id : string) (f : DownloadFaults)
    (token : Decoded) (w : World) :
  let w' := fst (download_audio job_id user_id f token w) in
  jobs_db w' = jobs_db w ∧ background_tasks w' = background_tasks w
  ∧ ∀ j, notifications j (log w') = notifications j (log w).
Proof.
  unfold download_audio.
  destruct (get_current_user_orchestrator token); [cbn; auto|].
  destruct (not_visible _ _); [cbn; auto|].
  destruct (find_job _ _ _) as [job|]; [|cbn; auto].
  destruct (_ || _); [cbn; auto|].
  pose proof (download_try_frame (Py.str_opt (AudioJob.output_audio_path job))
                user_id f w) as Hframe.
  destruct (download_try _ _ _ _) as [w' [e|body]]; exact Hframe.
Qed.

Lemma get_job_status_pure (job_id user_id : string) (token : Decoded)
    (w : World) :
  fst (get_job_status job_id user_id token w) = w.
Proof.
  unfold get_job_status.
  destruct (get_current_user_orchestrator token); [reflexivity|].
  destruct (not_visible _ _); [reflexivity|].
  destruct (find_job _ _ _); reflexivity.
Qed.

(** Every step keeps the world consistent, keeps every job, and moves no
    status back; a failed job stays failed. *)
Lemma step_spec (w w' : World) :
  consistent w → step w w' →
  consistent w'
  ∧ ∀ j job, jobs_db w !! j = Some job →
      ∃ job', jobs_db w' !! j = Some job'
              ∧ (status_rank (AudioJob.status job)
                   ≤ status_rank (AudioJob.status job'))%nat
              ∧ (AudioJob.status job = "failed" →
                 AudioJob.status job' = "failed")
              ∧ AudioJob.user_id job' = AudioJob.user_id job.
Proof.
  intros Hc [o Hen]. destruct o as [req job_id f token|i reply f|j u t|j u f t];
    cbn [run enabled] in *.
  - destruct (process_audio_spec req job_id f token w Hc Hen) as [Hc' Hkeep].
    split; [exact Hc'|]. intros j job Hj. exists job.
    split; [apply Hkeep, Hj|]. split; [lia|]. split; [tauto | reflexivity].
  - apply resume_spec, Hc.
  - rewrite get_job_status_pure. split; [exact Hc|]. intros j0 job Hj.
    exists job. split; [exact Hj|]. split; [lia|]. split; [tauto | reflexivity].
  - destruct (download_audio_frame j u f t w) as (Hj & Ht & Hn).
    split; [apply (consistent_frame w); assumption|].
    intros j0 job Hj0. exists job. rewrite Hj.
    split; [exact Hj0|]. split; [lia|]. split; [tauto | reflexivity].
Qed.

Lemma reachable_consistent (w : World) : reachable w → consistent w.
Proof.
  induction 1 as [fs users|w w' _ IH Hstep]; [apply consistent_initial|].
  apply (step_spec w w' IH Hstep).
Qed.

End Invariant.

Lemma run_keeps_jobs (w w' : Orchestrator.World) (j : string)
    (job : AudioJob.t) :
  Orchestrator.reachable w → rtc Orchestrator.step w w' →
  Orchestrator.jobs_db w !! j = Some job →
  ∃ job', Orchestrator.jobs_db w' !! j = Some job'
          ∧ (Orchestrator.status_rank (AudioJob.status job)
               ≤ Orchestrator.status_rank (AudioJob.status job'))%nat
          ∧ (AudioJob.status job = "failed" → AudioJob.status job' = "failed")
          ∧ AudioJob.user_id job' = AudioJob.user_id job.
Proof.
  intros Hreach Hrun. revert job.
  induction Hrun as [w|w w1 w' Hstep Hrun IH]; intros job Hj.
  - exists job. split; [exact Hj|]. split; [lia|]. split; [tauto | reflexivity].
  - destruct (step_spec w w1 (reachable_consistent w Hreach) Hstep)
      as [_ Hmono].
    destruct (Hmono j job Hj) as (job1 & Hj1 & Hrank1 & Hfail1 & Huid1).
    destruct (IH (Orchestrator.reachable_step w w1 Hreach Hstep) job1 Hj1)
      as (job' & Hj' & Hrank' & Hfail' & Huid').
    exists job'. split; [exact Hj'|]. split; [lia|].
    split; [tauto | congruence].
Qed.

(** In every run from a reachable world, every stored job stays stored
    under its owner, its status does not go back in the order
    pending < processing < completed, failed, and a failed job stays failed. *)
Theorem status_never_goes_back (w w' : Orchestrator.World) (j : string)
    (job : AudioJob.t) :
  Orchestrator.reachable w → rtc Orchestrator.step w w' →
  Orchestrator.jobs_db w !! j = Some job →
  ∃ job', Orchestrator.jobs_db w' !! j = Some job'
          ∧ (Orchestrator.status_rank (AudioJob.status job)
               ≤ Orchestrator.status_rank (AudioJob.status job'))%nat
          ∧ (AudioJob.status job = "failed" → AudioJob.status job' = "failed")
          ∧ AudioJob.user_id job' = AudioJob.user_id job.
Proof.
  intros Hreach Hrun Hj. exact (run_keeps_jobs w w' j job Hreach Hrun Hj).
Qed.

(** Two polls of one job by a caller who may see it, the second after any
    run from the world of the first: the second succeeds too and its status
    is not below the first. *)
Theorem polls_never_go_back (w w' : Orchestrator.World)
    (job_id user_id : string) (token : Orchestrator.Decoded)
    (first : Orchestrator.StatusBody) :
  Orchestrator.reachable w → rtc Orchestrator.step w w' →
  snd (Orchestrator.get_job_status job_id user_id token w) = inr first →
  ∃ second,
    snd (Orchestrator.get_job_status job_id user_id token w') = inr second
    ∧ (Orchestrator.status_rank (Orchestrator.st_status first)
         ≤ Orchestrator.status_rank (Orchestrator.st_status second))%nat
    ∧ (Orchestrator.st_status first = "failed" →
       Orchestrator.st_status second = "failed").
Proof.
  intros Hreach Hrun. unfold Orchestrator.get_job_status.
  destruct (Orchestrator.get_current_user_orchestrator token);
    [discriminate|].
  destruct (Orchestrator.not_visible _ _); [discriminate|].
  unfold Orchestrator.find_job.
  destruct (Orchestrator.jobs_db w !! job_id) as [job|] eqn:Hj; [|discriminate].
  destruct (bool_decide _) eqn:Hown; [|discriminate].
  cbn [snd]. intros [= <-]. cbn [Orchestrator.st_status].
  destruct (run_keeps_jobs w w' job_id job Hreach Hrun Hj)
    as (job' & -> & Hrank & Hfail & ->).
  rewrite Hown. eexists. split; [reflexivity|]. split; [exact Hrank | exact Hfail].
Qed.

(** A task that has ended, in a reachable world: its job is completed or
    failed; when a worker is registered for its capability exactly one
    notification was sent for the job, of kind "job_complete" for a
    completed and "job_failed" for a failed job; when none is registered no
    notification was sent. *)
Theorem notifications_of_ended_task (w : Orchestrator.World) (i : nat)
    (t : Orchestrator.Task) :
  Orchestrator.reachable w →
  Orchestrator.background_tasks w !! i = Some t →
  Orchestrator.task_pc t = Orchestrator.Finished →
  ∃ job,
    Orchestrator.jobs_db w !! Orchestrator.task_job_id t = Some job
    ∧ (AudioJob.status job = "completed" ∨ AudioJob.status job = "failed")
    ∧ (Orchestrator.registered
         (AudioProcessRequest.capability (Orchestrator.task_req t)) →
       ∃ n,
         Orchestrator.notifications (Orchestrator.task_job_id t)
           (Orchestrator.log w) = [n]
         ∧ Notification.notification_type n
             = Orchestrator.kind_of (AudioJob.status job))
    ∧ (¬ Orchestrator.registered
           (AudioProcessRequest.capability (Orchestrator.task_req t)) →
       Orchestrator.notifications (Orchestrator.task_job_id t)
         (Orchestrator.log w) = []).
Proof.
  intros Hreach Hi Hpc.
  destruct (Orchestrator.task_job w (reachable_consistent w Hreach) i t Hi)
    as (job & Hjob & Hst & Hnot).
  rewrite Hpc in Hst, Hnot. cbn in Hst, Hnot.
  exists job. split; [exact Hjob|]. split; [exact Hst|].
  destruct Hnot as [[Hns Hunreg]|[Hreg Hn]]; split; intros H;
    first [contradiction | assumption].
Qed.

(** The answer to the notification request, or its failure, changes neither
    the jobs nor the log: the task just ends. *)
Lemma notification_outcome_ignored (w : Orchestrator.World) (i : nat)
    (t : Orchestrator.Task) (reply : Outcome AudioProcessResponse.t)
    (f : Fault) :
  Orchestrator.background_tasks w !! i = Some t →
  Orchestrator.task_pc t = Orchestrator.AwaitNotify →
  Orchestrator.jobs_db (Orchestrator.resume i reply f w) = Orchestrator.jobs_db w
  ∧ Orchestrator.log (Orchestrator.resume i reply f w) = Orchestrator.log w
  ∧ Orchestrator.background_tasks (Orchestrator.resume i reply f w) !! i
      = Some (Orchestrator.mkTask (Orchestrator.task_job_id t)
                (Orchestrator.task_req t) Orchestrator.Finished).
Proof.
  intros Hi Hpc. unfold Orchestrator.resume, Orchestrator.segment.
  rewrite Hi, Hpc. cbn. split; [reflexivity|]. split; [reflexivity|].
  apply list_lookup_insert_eq. apply lookup_lt_Some in Hi. exact Hi.
Qed.

(** ** Base64: decoding an encoding *)

Section Base64RoundTrip.
Import Base64.

Lemma sextet_chars (n : nat) :
  (n < 64)%nat → enc_char n ≠ pad ∧ dec_char (enc_char n) = Some n.
Proof.
  intros Hn.
  assert (forallb (λ k, bool_decide (enc_char k ≠ pad
                                     ∧ dec_char (enc_char k) = Some k))
            (seq 0 64) = true) as Hall by (vm_compute; reflexivity).
  rewrite forallb_forall in Hall.
  specialize (Hall n). rewrite bool_decide_eq_true in Hall.
  apply Hall, in_seq. lia.
Qed.

Lemma byte_bounded (b : Byte.byte) : (Byte.to_nat b < 256)%nat.
Proof. pose proof (Byte.to_nat_bounded b). lia. Qed.

Lemma byte_of_to_nat (b : Byte.byte) : byte_of (Byte.to_nat b) = b.
Proof. unfold byte_of. rewrite Byte.of_to_nat. reflexivity. Qed.

Lemma a2b_sextet (n : nat) (r : string) (quad_pos leftchar pads : nat)
    (out : list Byte.byte) :
  (n < 64)%nat →
  a2b (String (enc_char n) r) quad_pos leftchar pads out
  = match quad_pos with
    | 0%nat => a2b r 1%nat n 0%nat out
    | 1%nat =>
        a2b r 2%nat (n mod 16)%nat 0%nat (byte_of (leftchar * 4 + n / 16) :: out)
    | 2%nat =>
        a2b r 3%nat (n mod 4)%nat 0%nat (byte_of (leftchar * 16 + n / 4) :: out)
    | _ => a2b r 0%nat 0%nat 0%nat (byte_of (leftchar * 64 + n) :: out)
    end.
Proof.
  intros Hn. destruct (sextet_chars n Hn) as [Hpad Hdec].
  cbn [a2b]. rewrite (bool_decide_eq_false_2 _ Hpad), Hdec. reflexivity.
Qed.

Lemma sextets_of_bytes (a b c : nat) :
  (a < 256)%nat → (b < 256)%nat → (c < 256)%nat →
  (a / 4 < 64 ∧ a mod 4 * 16 + b / 16 < 64 ∧ b mod 16 * 4 + c / 64 < 64
   ∧ c mod 64 < 64
   ∧ a / 4 * 4 + (a mod 4 * 16 + b / 16) / 16 = a
   ∧ (a mod 4 * 16 + b / 16) mod 16 * 16 + (b mod 16 * 4 + c / 64) / 4 = b
   ∧ (b mod 16 * 4 + c / 64) mod 4 * 64 + c mod 64 = c)%nat.
Proof.
  intros Ha Hb Hc. repeat split; zify; Z.div_mod_to_equations; lia.
Qed.


Lemma list_ind3 {A} (P : list A → Prop) :
  P [] → (∀ a, P [a]) → (∀ a b, P [a; b]) →
  (∀ a b c rest, P rest → P (a :: b :: c :: rest)) →
  ∀ l, P l.
Proof.
  intros H0 H1 H2 H3 l.
  assert (P l ∧ (∀ a, P (a :: l)) ∧ (∀ a b, P (a :: b :: l))) as [Hl _].
  { induction l as [|c rest (IH0 & IH1 & IH2)]; [auto|].
    split; [apply IH1|]. split; [intros a; apply IH2|].
    intros a b. apply H3, IH0. }
  exact Hl.
Qed.

(** Decoding, from the start of a quad, what [b64encode] produced. *)
Lemma a2b_b64encode (bs out : list Byte.byte) :
  a2b (b64encode bs) 0 0 0 out = Some (rev out ++ bs).
Proof.
  revert out. induction bs as [|a|a b|a b c rest IH] using list_ind3;
    intros out.
  - cbn. rewrite app_nil_r. reflexivity.
  - pose proof (byte_bounded a) as Ha.
    destruct (sextets_of_bytes (Byte.to_nat a) 0 0 Ha) as
      (H1 & H2 & _ & _ & E1 & _); [lia..|].
    cbn [b64encode]. unfold quad. rewrite Nat.add_0_r in H2, E1.
    rewrite !a2b_sextet by assumption.
    rewrite E1, byte_of_to_nat. cbn. rewrite <- ?app_assoc. reflexivity.
  - pose proof (byte_bounded a) as Ha.
    pose proof (byte_bounded b) as Hb.
    destruct (sextets_of_bytes (Byte.to_nat a) (Byte.to_nat b) 0 Ha Hb) as
      (H1 & H2 & H3 & _ & E1 & E2 & _); [lia|].
    cbn [b64encode]. unfold quad. rewrite Nat.add_0_r in H3, E2.
    rewrite !a2b_sextet by assumption.
    rewrite E1, E2, !byte_of_to_nat. cbn. rewrite <- ?app_assoc. reflexivity.
  - pose proof (byte_bounded a) as Ha.
    pose proof (byte_bounded b) as Hb.
    pose proof (byte_bounded c) as Hc.
    destruct (sextets_of_bytes (Byte.to_nat a) (Byte.to_nat b) (Byte.to_nat c)
                Ha Hb Hc) as (H1 & H2 & H3 & H4 & E1 & E2 & E3).
    cbn [b64encode]. unfold quad. rewrite !a2b_sextet by assumption.
    rewrite E1, E2, E3, !byte_of_to_nat, IH. cbn. rewrite <- ?app_assoc.
    reflexivity.
Qed.

(** [b64decode(b64encode(bs)) == bs] *)
Lemma b64decode_b64encode (bs : list Byte.byte) :
  b64decode (b64encode bs) = Some bs.
Proof. unfold b64decode. apply a2b_b64encode. Qed.

End Base64RoundTrip.

(** ** A complete run: submit, process, poll, download *)

(** The text-to-speech worker of the repository answers with audio.  With
    every service reachable and a paid account, the job ends "completed"
    with its output path recorded, one "job_complete" notification is sent,
    the status query reports the output as available, the download debits
    one minute and returns the audio the worker produced. *)
Example tts_output_round_trip :
  let req := AudioProcessRequest.mk "alice" None (Some "hello") "tts" "m" None in
  let token :=
    Orchestrator.DecodedClaims
      (Orchestrator.mkClaims (Some "alice") (Some "user")) in
  let fs := Fs.mk ∅ {[ "/app"; "/app/data" ]} "/app" in
  let users : gmap string User.t :=
    {[ "alice" := User.mk "alice" "alice" "a@example.com" "pw" "user" true 5 ]} in
  let reply := Returned (Workers.process_tts req fs) in
  let w1 :=
    Orchestrator.run (Orchestrator.Submit req "j1" NoFault token)
      (Orchestrator.initial fs users) in
  let w2 := Orchestrator.run (Orchestrator.Resume 0 reply NoFault) w1 in
  let w3 := Orchestrator.run (Orchestrator.Resume 0 reply NoFault) w2 in
  let w4 := Orchestrator.run (Orchestrator.Resume 0 reply NoFault) w3 in
  let w5 := Orchestrator.run (Orchestrator.Resume 0 reply NoFault) w4 in
  let r :=
    Orchestrator.download_audio "j1" "alice"
      (Orchestrator.mkFaults NoFault NoFault NoFault NoFault) token w5 in
  snd (Orchestrator.get_job_status "j1" "alice" token w5)
    = inr (Orchestrator.mkStatusBody "j1" "completed" true (Some Py.ANone) None)
  ∧ AudioJob.output_audio_path <$> Orchestrator.jobs_db w5 !! "j1"
      = Some (Some "/app/data/output_j1.wav")
  ∧ Notification.notification_type
      <$> Orchestrator.notifications "j1" (Orchestrator.log w5)
      = ["job_complete"]
  ∧ snd r = inr (Orchestrator.mkDl "Audio downloaded successfully"
                   Workers.DUMMY_AUDIO_B64)
  ∧ User.minutes_remaining <$> Orchestrator.users_db (fst r) !! "alice" = Some 4.
Proof.
  intros req token fs users reply w1 w2 w3 w4 w5 r.
  repeat split; vm_compute; reflexivity.
Qed.

(** ** The paths of the code that the concrete runs above take, in general *)

(** [upload_audio] never refuses a file name: its only error status is 500. *)
Lemma upload_audio_never_refuses (user_id audio_b64 uid : string)
    (file_name : option string) (fs : Fs.t) (code : Z) (text : string) :
  snd (Storage.upload_audio user_id audio_b64 file_name uid fs)
    = ErrStatus code text →
  code = 500.
Proof.
  unfold Storage.upload_audio.
  destruct (Base64.b64decode audio_b64) as [bytes|]; cbn [snd].
  - destruct (Fs.write fs _ bytes); cbn [snd]; [discriminate|].
    unfold raise. cbn. intros [= <- _]. reflexivity.
  - unfold raise. cbn. intros [= <- _]. reflexivity.
Qed.

(** A "completed" answer without audio leaves the metadata of the job as it
    was: the text of the answer is not recorded. *)
Lemma segment_worker_text_only (job_id : string) (req : AudioProcessRequest.t)
    (worker_output : AudioProcessResponse.t) (w : Orchestrator.World)
    (job : AudioJob.t) :
  Orchestrator.jobs_db w !! job_id = Some job →
  AudioProcessResponse.status worker_output = "completed" →
  Py.truthy_opt (AudioProcessResponse.output_audio_b64 worker_output) = false →
  let r :=
    Orchestrator.segment_worker job_id req (Returned (Ok200 worker_output)) w in
  snd r = Orchestrator.AwaitNotify
  ∧ Orchestrator.jobs_db (fst r) !! job_id
      = Some (AudioJob.set_status "completed" job)
  ∧ AudioJob.metadata (AudioJob.set_status "completed" job)
      = AudioJob.metadata job.
Proof.
  intros Hjob Hst Hno. unfold Orchestrator.segment_worker.
  rewrite (bool_decide_eq_true_2 _ Hst), Hno.
  destruct (update_then_notify job_id req (AudioJob.set_status "completed")
              w job Hjob) as (n & Hn & _).
  cbn [fst snd]. rewrite Hn. cbn [Orchestrator.jobs_db].
  split; [reflexivity|]. split; [apply lookup_insert_eq | reflexivity].
Qed.

(** A task that awaits the upload of its output has marked its job
    "completed"; when the upload does not return 200 the job is marked
    "failed". *)
Lemma segment_store_failure (job_id : string) (req : AudioProcessRequest.t)
    (worker_output : AudioProcessResponse.t) (f : Fault)
    (w : Orchestrator.World) (job : AudioJob.t) :
  Orchestrator.jobs_db w !! job_id = Some job →
  (∀ body,
     snd (call f
            (Storage.upload_audio (AudioProcessRequest.user_id req)
               (Py.str_opt (AudioProcessResponse.output_audio_b64 worker_output))
               (Some ("output_" +:+ job_id +:+ ".wav")) "")
            (Orchestrator.storage w)) ≠ Returned (Ok200 body)) →
  ∃ job',
    Orchestrator.jobs_db
      (fst (Orchestrator.segment_store job_id req worker_output f w)) !! job_id
      = Some job'
    ∧ AudioJob.status job' = "failed".
Proof.
  intros Hjob Hfail. unfold Orchestrator.segment_store.
  destruct (call f _ (Orchestrator.storage w)) as [fs' o]. cbn [snd] in Hfail.
  destruct o as [[body|code text]|e]; [destruct (Hfail body eq_refl)| |];
    unfold Orchestrator.fail_job;
    match goal with
    | |- context [Orchestrator.update_job job_id ?g ?w0] =>
        destruct (update_then_notify job_id req g w0 job Hjob) as (n & Hn & _)
    end;
    cbn [fst]; rewrite Hn; cbn [Orchestrator.jobs_db Orchestrator.with_storage];
    eexists; (split; [apply lookup_insert_eq | reflexivity]).
Qed.

(** * Further properties of the services *)

(** ** Storage service: what is stored can be fetched, what is deleted is gone *)

Lemma join_storage_dir_absolute (name : string) :
  PosixPath.startswith "/" (PosixPath.join Storage.STORAGE_DIR name) = true.
Proof.
  unfold PosixPath.join.
  destruct (PosixPath.startswith "/" name) eqn:Habs; [exact Habs|].
  reflexivity.
Qed.

Lemma join_absolute (a b : string) :
  PosixPath.startswith "/" b = true → PosixPath.join a b = b.
Proof. intros H. unfold PosixPath.join. rewrite H. reflexivity. Qed.

Lemma resolve_dirs (fs fs' : Fs.t) (p : string) :
  Fs.dirs fs' = Fs.dirs fs → Fs.cwd fs' = Fs.cwd fs →
  Fs.resolve fs' p = Fs.resolve fs p.
Proof.
  intros Hd Hc. unfold Fs.resolve. rewrite Hc. apply walk_dirs, Hd.
Qed.

Lemma exists_after_write (fs fs' : Fs.t) (p : string) (bs : list Byte.byte) :
  Fs.write fs p bs = Some fs' → Fs.exists_ fs' p = true.
Proof.
  unfold Fs.write, Fs.exists_.
  destruct (Fs.resolve fs p) as [c|] eqn:Hres; [|discriminate].
  destruct (Fs.is_dir fs c); [discriminate|]. intros [= <-].
  rewrite (resolve_dirs fs (Fs.mk _ (Fs.dirs fs) (Fs.cwd fs)) p eq_refl eq_refl),
    Hres.
  cbn [Fs.files]. rewrite lookup_insert_eq.
  rewrite bool_decide_eq_true_2 by eauto. reflexivity.
Qed.

(** A stored blob is served back.  When [upload_audio] answers 200 and the
    path it returns passes the check of [download_audio], a download of that
    path by any user answers 200 with the encoding of exactly the bytes that
    were decoded from the upload, and leaves the file system as it is. *)
Theorem upload_then_download (user_id audio_b64 uid reader : string)
    (file_name : option string) (fs fs' : Fs.t) (body : Storage.UploadBody) :
  Storage.upload_audio user_id audio_b64 file_name uid fs = (fs', Ok200 body) →
  Storage.traversal_check fs' (Storage.file_path body) = true →
  ∃ bytes,
    Base64.b64decode audio_b64 = Some bytes
    ∧ Storage.download_audio (Storage.file_path body) reader fs'
      = (fs', Ok200 (Storage.mkDownload (Base64.b64encode bytes))).
Proof.
  unfold Storage.upload_audio.
  set (name := if Py.truthy_opt file_name then Py.str_opt file_name
               else "audio_" +:+ user_id +:+ "_" +:+ uid +:+ ".wav").
  destruct (Base64.b64decode audio_b64) as [bytes|]; [|discriminate].
  destruct (Fs.write fs _ bytes) as [fs1|] eqn:Hw; [|discriminate].
  intros [= <- <-]. cbn [Storage.file_path]. intros Hcheck.
  exists bytes. split; [reflexivity|]. unfold Storage.download_audio.
  rewrite (join_absolute _ _ (join_storage_dir_absolute name)).
  rewrite Hcheck, (exists_after_write _ _ _ _ Hw), (read_after_write _ _ _ _ Hw).
  reflexivity.
Qed.

Lemma upload_then_download_witness :
  let fs := Fs.mk ∅ {[ "/app"; "/app/data" ]} "/app" in
  let fs' :=
    Fs.mk {[ "/app/data/a.wav" := [Byte.x41] ]} {[ "/app"; "/app/data" ]}
          "/app" in
  ∃ bytes,
    Base64.b64decode "QQ==" = Some bytes
    ∧ Storage.download_audio "/app/data/a.wav" "bob" fs'
      = (fs', Ok200 (Storage.mkDownload (Base64.b64encode bytes))).
Proof.
  intros fs fs'.
  apply (upload_then_download "alice" "QQ==" "" "bob" (Some "a.wav") fs fs'
           (Storage.mkUpload "Audio uploaded successfully (dummy)"
              "/app/data/a.wav")).
  - vm_compute. reflexivity.
  - vm_compute. reflexivity.
Defined.

(** A deleted blob is gone, and only that blob.  When [delete_audio] answers
    200, a download of the same path answers 404, and every other file of
    the storage reads as before. *)
Theorem delete_then_download (file_path user_id reader : string)
    (fs fs' : Fs.t) (body : Storage.DeleteBody) :
  Storage.delete_audio file_path user_id fs = (fs', Ok200 body) →
  Storage.download_audio file_path reader fs'
    = (fs', raise (mkExc 404 "File not found"))
  ∧ ∀ p,
      Fs.resolve fs p
        ≠ Fs.resolve fs (PosixPath.join Storage.STORAGE_DIR file_path) →
      Fs.read fs' p = Fs.read fs p.
Proof.
  unfold Storage.delete_audio, Storage.download_audio.
  set (full_path := PosixPath.join Storage.STORAGE_DIR file_path).
  destruct (Storage.traversal_check fs full_path) eqn:Hcheck;
    [|discriminate]. cbn [negb].
  destruct (Fs.exists_ fs full_path); [|discriminate]. cbn [negb].
  unfold Fs.remove.
  destruct (Fs.resolve fs full_path) as [c|] eqn:Hres; [|discriminate].
  destruct (Fs.is_dir fs c) eqn:Hdir; [discriminate|].
  destruct (Fs.files fs !! c) as [bytes|]; [|discriminate].
  intros [= <- _].
  assert (∀ p, Fs.resolve (Fs.mk (delete c (Fs.files fs)) (Fs.dirs fs)
                             (Fs.cwd fs)) p = Fs.resolve fs p) as Hsame.
  { intros p. apply resolve_dirs; reflexivity. }
  split.
  - unfold Storage.traversal_check in *. cbn [Fs.cwd]. rewrite Hcheck.
    cbn [negb]. unfold Fs.exists_. rewrite Hsame, Hres.
    unfold Fs.is_dir in *. cbn [Fs.files Fs.dirs]. rewrite Hdir.
    rewrite lookup_delete_eq.
    rewrite bool_decide_eq_false_2 by (intros [x Hx]; discriminate).
    reflexivity.
  - intros p Hp. unfold Fs.read. rewrite Hsame.
    destruct (Fs.resolve fs p) as [c'|]; [|reflexivity].
    unfold Fs.is_dir. cbn [Fs.files Fs.dirs].
    destruct (_ || _); [reflexivity|].
    apply lookup_delete_ne. congruence.
Qed.

Lemma delete_then_download_witness :
  let fs :=
    Fs.mk {[ "/app/data/a.wav" := [Byte.x41]; "/app/data/b.wav" := [Byte.x42] ]}
          {[ "/app"; "/app/data" ]} "/app" in
  let fs' :=
    Fs.mk {[ "/app/data/b.wav" := [Byte.x42] ]} {[ "/app"; "/app/data" ]}
          "/app" in
  Storage.download_audio "a.wav" "bob" fs'
    = (fs', raise (mkExc 404 "File not found"))
  ∧ Fs.read fs' "/app/data/b.wav" = Fs.read fs "/app/data/b.wav".
Proof.
  intros fs fs'.
  destruct (delete_then_download "a.wav" "alice" "bob" fs fs'
              (Storage.mkDelete "File deleted successfully"))
    as [Hgone Hothers].
  - vm_compute. reflexivity.
  - split; [exact Hgone|]. apply Hothers. vm_compute. discriminate.
Defined.

(** ** User-management service: registration and balances *)

Section Registration.
Import UserManagement.

Lemma first_conflict_None (values : list User.t) (user : UserRegister.t) :
  first_conflict values user = None ↔
  ∀ u, u ∈ values →
       User.username u ≠ UserRegister.username user
       ∧ User.email u ≠ UserRegister.email user.
Proof.
  induction values as [|v rest IH]; cbn.
  - split; [|reflexivity]. intros _ u Hu. inversion Hu.
  - repeat case_bool_decide.
    + split; [discriminate|]. intros Hall.
      destruct (Hall v (list_elem_of_here _ _)) as [Hn _]. contradiction.
    + split; [discriminate|]. intros Hall.
      destruct (Hall v (list_elem_of_here _ _)) as [_ He]. contradiction.
    + rewrite IH. split.
      * intros Hall u Hu. apply elem_of_cons in Hu as [->|Hu]; auto.
      * intros Hall u Hu. apply Hall. apply list_elem_of_further, Hu.
Qed.

Lemma first_conflict_Some (values : list User.t) (user : UserRegister.t)
    (d : string) :
  first_conflict values user = Some d →
  d = "Username already registered" ∨ d = "Email already registered".
Proof.
  induction values as [|v rest IH]; cbn; [discriminate|].
  repeat case_bool_decide; [intros [= <-]; by left | intros [= <-]; by right
                           | exact IH].
Qed.

End Registration.

(** Registration of a new account.  When no stored user has the username or
    the email of the request, [register_user] answers 200 with the new id
    and stores under it a user with the hashed password, role "user",
    unpaid, with no minutes; every other entry is as before, and the account
    status of the new user reads unpaid with 0 minutes. *)
Theorem register_user_new_account (user : UserRegister.t)
    (hashed_password new_user_id : string) (values : list User.t)
    (users_db : gmap string User.t) :
  UserManagement.values_of values users_db →
  (∀ k u, users_db !! k = Some u →
          User.username u ≠ UserRegister.username user
          ∧ User.email u ≠ UserRegister.email user) →
  let r :=
    UserManagement.register_user user hashed_password new_user_id values
      users_db in
  snd r = Ok200 (UserManagement.mkRegister "User registered successfully"
                   new_user_id)
  ∧ fst r !! new_user_id
      = Some (User.mk new_user_id (UserRegister.username user)
                (UserRegister.email user) hashed_password "user" false 0)
  ∧ (∀ k, k ≠ new_user_id → fst r !! k = users_db !! k)
  ∧ UserManagement.get_account_status new_user_id (fst r)
      = (fst r, Ok200 (UserManagement.mkStatus new_user_id false 0)).
Proof.
  intros Hvalues Hfree. unfold UserManagement.register_user.
  assert (UserManagement.first_conflict values user = None) as ->.
  { apply first_conflict_None. intros u Hu.
    apply Hvalues in Hu as [k Hk]. exact (Hfree k u Hk). }
  cbn [fst snd]. split; [reflexivity|].
  split; [apply lookup_insert_eq|].
  split; [intros k Hk; apply lookup_insert_ne; congruence|].
  unfold UserManagement.get_account_status. rewrite lookup_insert_eq.
  reflexivity.
Qed.

Lemma register_user_new_account_witness :
  let admin := User.mk "u0" "admin" "admin@example.com" "h0" "admin" true 99999 in
  let r :=
    UserManagement.register_user
      (UserRegister.mk "ann" "ann@example.com" "secret") "h1" "u1" [admin]
      {[ "u0" := admin ]} in
  snd r = Ok200 (UserManagement.mkRegister "User registered successfully" "u1")
  ∧ fst r !! "u1"
      = Some (User.mk "u1" "ann" "ann@example.com" "h1" "user" false 0)
  ∧ (∀ k, k ≠ "u1" → fst r !! k = ({[ "u0" := admin ]} : gmap string User.t) !! k)
  ∧ UserManagement.get_account_status "u1" (fst r)
      = (fst r, Ok200 (UserManagement.mkStatus "u1" false 0)).
Proof.
  intros admin.
  apply (register_user_new_account
           (UserRegister.mk "ann" "ann@example.com" "secret") "h1" "u1" [admin]
           {[ "u0" := admin ]}).
  - intros u. rewrite list_elem_of_singleton. split.
    + intros ->. exists "u0". apply lookup_singleton_eq.
    + intros [k Hk]. apply lookup_singleton_Some in Hk as [_ <-]. reflexivity.
  - intros k u Hk. apply lookup_singleton_Some in Hk as [_ <-].
    split; discriminate.
Defined.

(** Registration with a taken username or email.  When a stored user has the
    username or the email of the request, [register_user] answers 400 and
    stores nothing, in whatever order the dictionary yields its users. *)
Theorem register_user_duplicate (user : UserRegister.t)
    (hashed_password new_user_id : string) (values : list User.t)
    (users_db : gmap string User.t) (k : string) (u : User.t) :
  UserManagement.values_of values users_db →
  users_db !! k = Some u →
  User.username u = UserRegister.username user
    ∨ User.email u = UserRegister.email user →
  ∃ d,
    UserManagement.register_user user hashed_password new_user_id values
      users_db = (users_db, raise (mkExc 400 d))
    ∧ (d = "Username already registered" ∨ d = "Email already registered").
Proof.
  intros Hvalues Hk Hdup. unfold UserManagement.register_user.
  destruct (UserManagement.first_conflict values user) as [d|] eqn:Hc.
  - exists d. split; [reflexivity | exact (first_conflict_Some _ _ _ Hc)].
  - rewrite first_conflict_None in Hc.
    destruct (Hc u) as [Hn He]; [apply Hvalues; eauto|].
    destruct Hdup; contradiction.
Qed.

Lemma register_user_duplicate_witness :
  let admin := User.mk "u0" "admin" "admin@example.com" "h0" "admin" true 99999 in
  ∃ d,
    UserManagement.register_user
      (UserRegister.mk "admin" "other@example.com" "secret") "h1" "u1" [admin]
      {[ "u0" := admin ]}
      = ({[ "u0" := admin ]}, raise (mkExc 400 d))
    ∧ (d = "Username already registered" ∨ d = "Email already registered").
Proof.
  intros admin.
  apply (register_user_duplicate
           (UserRegister.mk "admin" "other@example.com" "secret") "h1" "u1"
           [admin] {[ "u0" := admin ]} "u0" admin).
  - intros u. rewrite list_elem_of_singleton. split.
    + intros ->. exists "u0". apply lookup_singleton_eq.
    + intros [k Hk]. apply lookup_singleton_Some in Hk as [_ <-]. reflexivity.
  - apply lookup_singleton_eq.
  - left. reflexivity.
Defined.

(** Registration keeps the accounts unique.  If no two stored users share a
    username or an email, the same holds after [register_user] with a fresh
    id, whether it accepts or refuses the request. *)
Theorem register_user_keeps_accounts_unique (user : UserRegister.t)
    (hashed_password new_user_id : string) (values : list User.t)
    (users_db : gmap string User.t) :
  UserManagement.values_of values users_db →
  users_db !! new_user_id = None →
  UserManagement.unique_accounts users_db →
  UserManagement.unique_accounts
    (fst (UserManagement.register_user user hashed_password new_user_id values
            users_db)).
Proof.
  intros Hvalues Hfresh Huniq. unfold UserManagement.register_user.
  destruct (UserManagement.first_conflict values user) as [d|] eqn:Hc;
    [exact Huniq|].
  rewrite first_conflict_None in Hc. cbn [fst].
  assert (∀ k u, users_db !! k = Some u →
                 User.username u ≠ UserRegister.username user
                 ∧ User.email u ≠ UserRegister.email user) as Hfree.
  { intros k u Hk. apply Hc, Hvalues. eauto. }
  intros k1 k2 u1 u2 H1 H2 Hsame.
  destruct (decide (k1 = new_user_id)) as [->|N1],
           (decide (k2 = new_user_id)) as [->|N2]; [reflexivity| | |].
  - rewrite lookup_insert_eq in H1. injection H1 as <-.
    rewrite lookup_insert_ne in H2 by congruence.
    destruct (Hfree k2 u2 H2) as [Hn He]. cbn in Hsame.
    destruct Hsame; congruence.
  - rewrite lookup_insert_eq in H2. injection H2 as <-.
    rewrite lookup_insert_ne in H1 by congruence.
    destruct (Hfree k1 u1 H1) as [Hn He]. cbn in Hsame.
    destruct Hsame; congruence.
  - rewrite lookup_insert_ne in H1, H2 by congruence.
    exact (Huniq k1 k2 u1 u2 H1 H2 Hsame).
Qed.

Lemma register_user_keeps_accounts_unique_witness :
  let admin := User.mk "u0" "admin" "admin@example.com" "h0" "admin" true 99999 in
  UserManagement.unique_accounts
    (fst (UserManagement.register_user
            (UserRegister.mk "ann" "ann@example.com" "secret") "h1" "u1"
            [admin] {[ "u0" := admin ]})).
Proof.
  intros admin.
  apply (register_user_keeps_accounts_unique
           (UserRegister.mk "ann" "ann@example.com" "secret") "h1" "u1"
           [admin] {[ "u0" := admin ]}).
  - intros u. rewrite list_elem_of_singleton. split.
    + intros ->. exists "u0". apply lookup_singleton_eq.
    + intros [k Hk]. apply lookup_singleton_Some in Hk as [_ <-]. reflexivity.
  - apply lookup_singleton_ne. discriminate.
  - intros k1 k2 u1 u2 H1 H2 _.
    apply lookup_singleton_Some in H1 as [<- _].
    apply lookup_singleton_Some in H2 as [<- _]. reflexivity.
Defined.

(** An update of the minutes touches one balance only.  For a stored user,
    [update_user_minutes] leaves every other user as stored, and of the user
    itself it keeps the id, username, email, password and role. *)
Theorem update_user_minutes_frame (users_db : gmap string User.t)
    (user_id : string) (minutes_change : Z) (user : User.t) :
  users_db !! user_id = Some user →
  let users_db' :=
    fst (UserManagement.update_user_minutes user_id minutes_change users_db) in
  (∀ other, other ≠ user_id → users_db' !! other = users_db !! other)
  ∧ ∃ user',
      users_db' !! user_id = Some user'
      ∧ User.id user' = User.id user
      ∧ User.username user' = User.username user
      ∧ User.email user' = User.email user
      ∧ User.password user' = User.password user
      ∧ User.role user' = User.role user.
Proof.
  intros Hu. unfold UserManagement.update_user_minutes. rewrite Hu.
  cbn [fst]. split.
  - intros other Hne. apply lookup_insert_ne. congruence.
  - eexists. split; [apply lookup_insert_eq|].
    destruct (_ <? 0); destruct (0 <? _); repeat split; reflexivity.
Qed.

Lemma update_user_minutes_frame_witness :
  let ann := User.mk "u1" "ann" "ann@example.com" "h1" "user" true 3 in
  let bob := User.mk "u2" "bob" "bob@example.com" "h2" "user" false 0 in
  let users_db : gmap string User.t := {[ "u1" := ann; "u2" := bob ]} in
  let users_db' :=
    fst (UserManagement.update_user_minutes "u1" (-7) users_db) in
  users_db' !! "u2" = Some bob
  ∧ ∃ user', users_db' !! "u1" = Some user' ∧ User.role user' = "user".
Proof.
  intros ann bob users_db users_db'.
  destruct (update_user_minutes_frame users_db "u1" (-7) ann)
    as [Hothers (user' & Hu & _ & _ & _ & _ & Hrole)].
  - reflexivity.
  - split.
    + etrans; [apply Hothers; discriminate | reflexivity].
    + exists user'. split; [exact Hu | exact Hrole].
Defined.

(** Two updates in a row add up as long as the first does not hit the
    floor: when the balance after the first change is not negative, updating
    by [a] and then by [b] leaves the store that one update by [a + b]
    leaves. *)
Theorem update_user_minutes_compose (users_db : gmap string User.t)
    (user_id : string) (a b : Z) (user : User.t) :
  users_db !! user_id = Some user →
  0 ≤ User.minutes_remaining user + a →
  fst (UserManagement.update_user_minutes user_id b
         (fst (UserManagement.update_user_minutes user_id a users_db)))
  = fst (UserManagement.update_user_minutes user_id (a + b) users_db).
Proof.
  intros Hu Hfloor. unfold UserManagement.update_user_minutes at 2 3.
  rewrite Hu. cbn [fst]. unfold UserManagement.update_user_minutes.
  rewrite lookup_insert_eq. cbn [fst]. rewrite insert_insert_eq. f_equal.
  destruct user as [i n e p r paid m].
  cbn [User.minutes_remaining User.set_minutes_remaining User.set_paid_status
       User.id User.username User.email User.password User.role
       User.paid_status] in *.
  destruct (Z.ltb_spec (m + a) 0) as [Hneg|_]; [lia|].
  cbn [User.minutes_remaining User.set_minutes_remaining User.set_paid_status
       User.id User.username User.email User.password User.role
       User.paid_status].
  replace (m + (a + b)) with (m + a + b) by lia.
  destruct (0 <? m + a);
    cbn [User.minutes_remaining User.set_minutes_remaining
         User.set_paid_status User.id User.username User.email User.password
         User.role User.paid_status];
    destruct (m + a + b <? 0);
    cbn [User.minutes_remaining User.set_minutes_remaining
         User.set_paid_status User.id User.username User.email User.password
         User.role User.paid_status];
    destruct (0 <? _); reflexivity.
Qed.

Lemma update_user_minutes_compose_witness :
  let ann := User.mk "u1" "ann" "ann@example.com" "h1" "user" true 3 in
  let users_db : gmap string User.t := {[ "u1" := ann ]} in
  fst (UserManagement.update_user_minutes "u1" (-5)
         (fst (UserManagement.update_user_minutes "u1" 4 users_db)))
  = fst (UserManagement.update_user_minutes "u1" (4 + -5) users_db).
Proof.
  intros ann users_db.
  apply (update_user_minutes_compose users_db "u1" 4 (-5) ann).
  - apply lookup_singleton_eq.
  - cbn. lia.
Defined.

(** ** Payment service: debits, checkout sessions and the webhook *)

(** The user that [update_user_minutes] stores: the balance is clamped at 0
    and [paid_status] follows the balance. *)
Lemma update_user_minutes_result (users_db : gmap string User.t)
    (user_id : string) (minutes_change : Z) (user : User.t) :
  users_db !! user_id = Some user →
  let m := Z.max 0 (User.minutes_remaining user + minutes_change) in
  UserManagement.update_user_minutes user_id minutes_change users_db
  = (<[user_id := User.mk (User.id user) (User.username user)
                    (User.email user) (User.password user) (User.role user)
                    (0 <? m) m]> users_db,
     Ok200 (UserManagement.mkUpdate "Minutes updated successfully" m)).
Proof.
  intros Hu m. unfold UserManagement.update_user_minutes. rewrite Hu.
  destruct user as [i n e p r paid m0]; subst m;
    cbn [User.minutes_remaining User.set_minutes_remaining
         User.set_paid_status User.id User.username User.email User.password
         User.role User.paid_status].
  destruct (Z.ltb_spec (m0 + minutes_change) 0) as [Hneg|Hpos];
    cbn [User.minutes_remaining User.set_minutes_remaining
         User.set_paid_status User.id User.username User.email User.password
         User.role User.paid_status].
  - rewrite Z.max_l by lia. reflexivity.
  - rewrite Z.max_r by lia. destruct (0 <? m0 + minutes_change); reflexivity.
Qed.





Section Webhook.
Import Payment.
Context {Amount : Type}.
Implicit Types (s : State (Amount := Amount)) (tr : Transaction (Amount := Amount)).

Lemma dict_get_set_eq {V} (k : string) (v : V) (d : Dict.t V) :
  Dict.get (Dict.set k v d) k = Some v.
Proof.
  induction d as [|[k' v'] rest IH]; cbn.
  - rewrite bool_decide_eq_true_2; reflexivity.
  - case_bool_decide as Hk; cbn.
    + rewrite bool_decide_eq_true_2; reflexivity.
    + rewrite (bool_decide_eq_false_2 _ Hk). exact IH.
Qed.

Lemma dict_get_set_ne {V} (k k' : string) (v : V) (d : Dict.t V) :
  k' ≠ k → Dict.get (Dict.set k v d) k' = Dict.get d k'.
Proof.
  intros Hne. induction d as [|[k0 v0] rest IH]; cbn.
  - rewrite bool_decide_eq_false_2 by congruence. reflexivity.
  - case_bool_decide as Hk; cbn.
    + subst k0. rewrite !bool_decide_eq_false_2 by congruence. reflexivity.
    + case_bool_decide; [reflexivity | exact IH].
Qed.

Lemma dict_set_elem {V} (k : string) (v : V) (d : Dict.t V) :
  (k, v) ∈ Dict.set k v d.
Proof.
  induction d as [|[k' v'] rest IH]; cbn.
  - apply list_elem_of_here.
  - case_bool_decide; [apply list_elem_of_here|].
    apply list_elem_of_further, IH.
Qed.

(** The webhook records the status before it credits: whatever happens to
    its two requests, a "completed" update of a transaction that was not
    completed leaves it stored as completed. *)
Lemma webhook_marks_completed (update : PaymentStatusUpdate.t)
    (on_update on_notify : Fault) s tr :
  Dict.get (transactions_db s) (PaymentStatusUpdate.transaction_id update)
    = Some tr →
  tr_status tr ≠ "completed" →
  PaymentStatusUpdate.status update = "completed" →
  transactions_db (fst (payment_webhook update on_update on_notify s))
  = Dict.set (PaymentStatusUpdate.transaction_id update)
      (set_tr_status "completed" tr) (transactions_db s).
Proof.
  intros Hget Hst Hup. unfold payment_webhook. rewrite Hget.
  rewrite (bool_decide_eq_false_2 _ Hst), Hup.
  rewrite bool_decide_eq_true_2 by reflexivity.
  cbn [users transactions_db printed].
  destruct (call on_update _ (users s)) as [users' resp].
  destruct resp as [[ok|code text]|e]; cbn [fst transactions_db];
    [|reflexivity..].
  destruct (call on_notify _ (printed s)) as [printed' sent].
  destruct sent; reflexivity.
Qed.

End Webhook.

(** A transaction is settled once.  After a webhook with status "completed"
    for a stored transaction, whatever happened to the requests it sent,
    every later webhook for that transaction answers "Transaction already
    processed" and changes nothing: no minutes are credited twice, and none
    are credited later when the first credit failed. *)
Theorem webhook_settles_once {Amount : Type}
    (update update' : PaymentStatusUpdate.t)
    (on_update on_notify on_update' on_notify' : Fault)
    (s : Payment.State (Amount := Amount))
    (tr : Payment.Transaction (Amount := Amount)) :
  Dict.get (Payment.transactions_db s)
    (PaymentStatusUpdate.transaction_id update) = Some tr →
  PaymentStatusUpdate.status update = "completed" →
  PaymentStatusUpdate.transaction_id update'
    = PaymentStatusUpdate.transaction_id update →
  let s1 := fst (Payment.payment_webhook update on_update on_notify s) in
  Payment.payment_webhook update' on_update' on_notify' s1
  = (s1, Ok200 (Payment.mkWebhook "Transaction already processed")).
Proof.
  intros Hget Hup Hsame s1.
  assert (∃ tr1, Dict.get (Payment.transactions_db s1)
                   (PaymentStatusUpdate.transaction_id update) = Some tr1
                 ∧ Payment.tr_status tr1 = "completed") as (tr1 & Hget1 & Hst1).
  { destruct (decide (Payment.tr_status tr = "completed")) as [Hdone|Hnot].
    - exists tr. split; [|exact Hdone]. subst s1.
      unfold Payment.payment_webhook. rewrite Hget.
      rewrite (bool_decide_eq_true_2 _ Hdone). exact Hget.
    - exists (Payment.set_tr_status "completed" tr). split; [|reflexivity].
      subst s1.
      rewrite (webhook_marks_completed update on_update on_notify s tr
                 Hget Hnot Hup).
      apply dict_get_set_eq. }
  unfold Payment.payment_webhook at 1. rewrite Hsame, Hget1.
  rewrite (bool_decide_eq_true_2 _ Hst1). reflexivity.
Qed.

Lemma webhook_settles_once_witness :
  let tr := Payment.mkTransaction "u1" 20%Z "USD" "basic" "pending" "url" in
  let s := Payment.mkState [("t1", tr)] ∅ [] in
  let update := PaymentStatusUpdate.mk "t1" "completed" "u1" (Some 60) in
  let s1 :=
    fst (Payment.payment_webhook update (ConnectError "refused") NoFault s) in
  Payment.users s1 = ∅
  ∧ Payment.payment_webhook update NoFault NoFault s1
    = (s1, Ok200 (Payment.mkWebhook "Transaction already processed")).
Proof.
  intros tr s update s1. split; [reflexivity|].
  apply (webhook_settles_once update update (ConnectError "refused") NoFault
           NoFault NoFault s tr); reflexivity.
Defined.



(** A checkout session is created pending and listed.  After
    [create_checkout_session] the transaction is stored under the new id as
    "pending" for the user of the request, the redirect URL of the answer is
    the URL stored with it, the transactions listed for that user contain
    it, and every transaction listed for a user belongs to that user.  Users
    and notifications are untouched. *)
Theorem checkout_session_is_listed {Amount : Type}
    (str_amount : Amount → string)
    (req : Payment.PaymentRequest (Amount := Amount)) (transaction_id : string)
    (s : Payment.State (Amount := Amount)) :
  let r := Payment.create_checkout_session str_amount req transaction_id s in
  ∃ tr,
    Dict.get (Payment.transactions_db (fst r)) transaction_id = Some tr
    ∧ Payment.tr_status tr = "pending"
    ∧ Payment.tr_user_id tr = Payment.req_user_id req
    ∧ snd r = Ok200 (Payment.mkCheckout "Checkout session created (dummy)"
                       transaction_id (Payment.tr_gateway_url tr))
    ∧ (transaction_id, tr)
        ∈ Payment.get_user_transactions (Payment.req_user_id req) (fst r)
    ∧ (∀ user_id item,
         item ∈ Payment.get_user_transactions user_id (fst r) →
         Payment.tr_user_id (snd item) = user_id)
    ∧ Payment.users (fst r) = Payment.users s
    ∧ Payment.printed (fst r) = Payment.printed s.
Proof.
  intros r. subst r. unfold Payment.create_checkout_session. cbn [fst snd].
  eexists. split; [apply dict_get_set_eq|]. cbn.
  split; [reflexivity|]. split; [reflexivity|]. split; [reflexivity|].
  split.
  - unfold Payment.get_user_transactions. cbn [Payment.transactions_db].
    apply list_elem_of_filter. split; [reflexivity | apply dict_set_elem].
  - split; [|split; reflexivity].
    intros user_id item Hitem. unfold Payment.get_user_transactions in Hitem.
    apply list_elem_of_filter in Hitem as [Huser _]. exact Huser.
Qed.

(** ** Workers: what they answer can be stored *)

Lemma dummy_audio_decodes :
  ∃ bytes, Base64.b64decode Workers.DUMMY_AUDIO_B64 = Some bytes.
Proof. eexists. vm_compute. reflexivity. Qed.

Lemma simulated_audio_decodes (input_b64 : option string) (fs : Fs.t) :
  ∃ bytes,
    Base64.b64decode (fst (Workers.simulate_processing input_b64 fs))
      = Some bytes.
Proof.
  unfold Workers.simulate_processing, Workers.get_dummy_audio_b64_from_file.
  cbn [fst]. destruct (Fs.read fs _) as [audio_bytes|].
  - exists audio_bytes. apply b64decode_b64encode.
  - apply dummy_audio_decodes.
Qed.

(** The audio of a worker is valid base64 and can be stored.  Whenever the
    text-to-speech or the noise-removal worker answers 200, its answer is
    "completed" and carries audio that [b64decode] accepts, whether the
    worker read its dummy file or fell back on the built-in audio; and
    [upload_audio] stores that audio under any non-empty file name that can
    be opened for writing, after which the blob reads as the decoded
    bytes. *)
Theorem worker_audio_is_storable (req : AudioProcessRequest.t)
    (worker_fs : Fs.t) (worker_output : AudioProcessResponse.t) :
  Workers.process_tts req worker_fs = Ok200 worker_output
    ∨ Workers.process_noise_removal req worker_fs = Ok200 worker_output →
  AudioProcessResponse.status worker_output = "completed"
  ∧ ∃ audio_b64 bytes,
      AudioProcessResponse.output_audio_b64 worker_output = Some audio_b64
      ∧ Base64.b64decode audio_b64 = Some bytes
      ∧ ∀ (user_id name uid : string) (fs fs' : Fs.t),
          Py.truthy_str name = true →
          Fs.write fs (PosixPath.join Storage.STORAGE_DIR name) bytes
            = Some fs' →
          Storage.upload_audio user_id audio_b64 (Some name) uid fs
            = (fs', Ok200 (Storage.mkUpload
                             "Audio uploaded successfully (dummy)"
                             (PosixPath.join Storage.STORAGE_DIR name)))
          ∧ Fs.read fs' (PosixPath.join Storage.STORAGE_DIR name) = Some bytes.
Proof.
  assert (∀ input_b64 job message,
            Ok200 (AudioProcessResponse.mk job "completed"
                     (Some (fst (Workers.simulate_processing input_b64
                                   worker_fs))) None message)
              = Ok200 worker_output →
            AudioProcessResponse.status worker_output = "completed"
            ∧ ∃ audio_b64 bytes,
                AudioProcessResponse.output_audio_b64 worker_output
                  = Some audio_b64
                ∧ Base64.b64decode audio_b64 = Some bytes
                ∧ ∀ (user_id name uid : string) (fs fs' : Fs.t),
                    Py.truthy_str name = true →
                    Fs.write fs (PosixPath.join Storage.STORAGE_DIR name) bytes
                      = Some fs' →
                    Storage.upload_audio user_id audio_b64 (Some name) uid fs
                      = (fs', Ok200 (Storage.mkUpload
                                       "Audio uploaded successfully (dummy)"
                                       (PosixPath.join Storage.STORAGE_DIR name)))
                    ∧ Fs.read fs' (PosixPath.join Storage.STORAGE_DIR name)
                        = Some bytes) as Hshape.
  { intros input_b64 job message [= <-]. split; [reflexivity|].
    destruct (simulated_audio_decodes input_b64 worker_fs) as [bytes Hdec].
    exists (fst (Workers.simulate_processing input_b64 worker_fs)), bytes.
    split; [reflexivity|]. split; [exact Hdec|].
    intros user_id name uid fs fs' Hname Hw.
    split; [|exact (read_after_write _ _ _ _ Hw)].
    unfold Storage.upload_audio. cbn [Py.truthy_opt Py.str_opt].
    rewrite Hname, Hdec, Hw. reflexivity. }
  unfold Workers.process_tts, Workers.process_noise_removal.
  intros [H|H];
    (destruct (negb _); [discriminate|]);
    destruct (Workers.simulate_processing _ worker_fs) as [b t] eqn:Hsim;
    (eapply Hshape; rewrite Hsim; exact H).
Qed.

Lemma worker_audio_is_storable_witness :
  let req := AudioProcessRequest.mk "alice" None (Some "hello") "tts" "m" None in
  let fs := Fs.mk ∅ {[ "/app"; "/app/data" ]} "/app" in
  ∃ audio_b64 bytes worker_output,
    Workers.process_tts req fs = Ok200 worker_output
    ∧ AudioProcessResponse.output_audio_b64 worker_output = Some audio_b64
    ∧ Base64.b64decode audio_b64 = Some bytes.
Proof.
  intros req fs.
  destruct (worker_audio_is_storable req fs
              (AudioProcessResponse.mk "dummy_tts_job" "completed"
                 (Some Workers.DUMMY_AUDIO_B64) None
                 (Some "Text-to-speech completed for model m")))
    as (_ & audio_b64 & bytes & Hout & Hdec & _).
  - left. vm_compute. reflexivity.
  - exists audio_b64, bytes. eexists. split; [vm_compute; reflexivity|].
    split; [exact Hout | exact Hdec].
Defined.

(** ** Gateway: who gets past [verify_token] *)

Section VerifyToken.
Import Gateway.

Lemma rev_app_append (s acc t : string) :
  String.rev_app s acc +:+ t = String.rev_app s (acc +:+ t).
Proof.
  revert acc. induction s as [|c s IH]; intros acc; cbn; [reflexivity|].
  rewrite IH. reflexivity.
Qed.

Lemma split_go_nonempty (s cur : string) : split_go s cur ≠ [].
Proof.
  revert cur. induction s as [|c r IH]; intros cur; cbn; [discriminate|].
  case_bool_decide; [discriminate | apply IH].
Qed.

Lemma split_go_one (s cur x : string) :
  split_go s cur = [x] → x = String.rev_app cur s.
Proof.
  revert cur. induction s as [|c r IH]; intros cur; cbn.
  - intros [= <-]. reflexivity.
  - case_bool_decide.
    + intros [= _ Hnil]. destruct (split_go_nonempty _ _ Hnil).
    + intros Hx. apply IH in Hx. exact Hx.
Qed.

Lemma split_go_two (s cur a b : string) :
  split_go s cur = [a; b] → String.rev_app cur s = a +:+ " " +:+ b.
Proof.
  revert cur. induction s as [|c r IH]; intros cur; cbn; [discriminate|].
  case_bool_decide as Hc.
  - intros [= <- Hb]. apply split_go_one in Hb. cbn in Hb. subst b c.
    unfold String.rev. rewrite rev_app_append. reflexivity.
  - intros H. apply IH in H. exact H.
Qed.

End VerifyToken.

(** [verify_token] rejects with 401 only: a missing header, a header that is
    not two words, another scheme and a token that does not decode all end
    as status 401. *)
Theorem verify_token_rejects_with_401 (path : string)
    (auth_header : option string) (decode : string → Orchestrator.Decoded)
    (e : HTTPException) :
  Gateway.verify_token path auth_header decode = inl e → status_code e = 401.
Proof.
  unfold Gateway.verify_token.
  destruct (_ || _); [discriminate|].
  destruct (negb (Py.truthy_opt auth_header)); [intros [= <-]; reflexivity|].
  destruct (Gateway.split_space _) as [|scheme [|token [|x rest]]];
    try (intros [= <-]; reflexivity).
  destruct (negb _); [intros [= <-]; reflexivity|].
  destruct (decode token); [intros [= <-]; reflexivity | discriminate].
Qed.

Lemma verify_token_rejects_with_401_witness :
  Gateway.verify_token "/api/audio/job-status/j1" (Some "Basic abc")
    (λ _, Orchestrator.DecodeError "Invalid token")
  = inl (mkExc 401 "Authentication error: 401: Invalid authentication scheme")
  ∧ status_code
      (mkExc 401 "Authentication error: 401: Invalid authentication scheme")
    = 401.
Proof.
  split; [vm_compute; reflexivity|].
  apply (verify_token_rejects_with_401 "/api/audio/job-status/j1"
           (Some "Basic abc") (λ _, Orchestrator.DecodeError "Invalid token")).
  vm_compute. reflexivity.
Defined.

(** [verify_token] accepts only a bearer token that decodes.  When it returns
    a payload on a path other than registration and login, the header is a
    scheme and a token separated by one space, the scheme is "bearer" in any
    letter case, and the payload is what [decode_access_token] returns for
    the token; on the registration and login paths it returns the guest
    payload whatever the header is. *)
Theorem verify_token_accepts (path : string) (auth_header : option string)
    (decode : string → Orchestrator.Decoded) (payload : Orchestrator.Claims) :
  Gateway.verify_token path auth_header decode = inr payload →
  ((path = "/api/users/register" ∨ path = "/api/users/login")
   ∧ payload = Orchestrator.mkClaims (Some "anonymous") (Some "guest"))
  ∨ ∃ scheme token,
      auth_header = Some (scheme +:+ " " +:+ token)
      ∧ Gateway.lower scheme = "bearer"
      ∧ decode token = Orchestrator.DecodedClaims payload.
Proof.
  unfold Gateway.verify_token.
  destruct (_ || _) eqn:Hpath.
  - intros [= <-]. left. split; [|reflexivity].
    apply orb_true_iff in Hpath as [H|H]; apply bool_decide_eq_true in H; auto.
  - destruct auth_header as [h|]; [|discriminate]. cbn [Py.truthy_opt Py.str_opt].
    destruct (negb (Py.truthy_str h)); [discriminate|].
    destruct (Gateway.split_space h) as [|scheme [|token [|x rest]]] eqn:Hsplit;
      try discriminate.
    destruct (bool_decide (Gateway.lower scheme = "bearer")) eqn:Hscheme;
      [|discriminate]. cbn [negb].
    destruct (decode token) as [error|c] eqn:Hdec; [discriminate|].
    intros [= <-]. right. exists scheme, token.
    apply split_go_two in Hsplit. cbn in Hsplit.
    apply bool_decide_eq_true in Hscheme.
    split; [congruence|]. split; [exact Hscheme | exact Hdec].
Qed.

Lemma verify_token_accepts_witness :
  let decode (token : string) :=
    if bool_decide (token = "t0k3n")
    then Orchestrator.DecodedClaims
           (Orchestrator.mkClaims (Some "alice") (Some "user"))
    else Orchestrator.DecodeError "Invalid token" in
  ∃ scheme token,
    Some "BEARER t0k3n" = Some (scheme +:+ " " +:+ token)
    ∧ Gateway.lower scheme = "bearer"
    ∧ decode token
      = Orchestrator.DecodedClaims
          (Orchestrator.mkClaims (Some "alice") (Some "user")).
Proof.
  intros decode.
  destruct (verify_token_accepts "/api/audio/job-status/j1"
              (Some "BEARER t0k3n") decode
              (Orchestrator.mkClaims (Some "alice") (Some "user")) eq_refl)
    as [[[Hp|Hp] _]|Hok]; [discriminate Hp | discriminate Hp | exact Hok].
Defined.

(** Developer access follows the balance.  Right after an update of the
    minutes of a stored user, with the user-management service reachable,
    [check_developer_access] grants access exactly when the new balance is
    positive and answers 403 otherwise. *)
Theorem developer_access_follows_balance (users_db : gmap string User.t)
    (sub : string) (minutes_change : Z) (user : User.t) :
  users_db !! sub = Some user →
  let users_db' :=
    fst (UserManagement.update_user_minutes sub minutes_change users_db) in
  Gateway.check_developer_access sub NoFault users_db'
  = (users_db',
     if 0 <? User.minutes_remaining user + minutes_change
     then Ok200 (Gateway.mkAccess "API access granted for paid user." sub)
     else raise (mkExc 403
                   "Forbidden: Only paid users have developer API access.")).
Proof.
  intros Hu users_db'. subst users_db'.
  rewrite (update_user_minutes_result users_db sub minutes_change user Hu).
  cbn [fst]. unfold Gateway.check_developer_access. cbn [call].
  unfold UserManagement.get_account_status. rewrite lookup_insert_eq.
  cbn [UserManagement.as_paid_status User.paid_status].
  assert ((0 <? Z.max 0 (User.minutes_remaining user + minutes_change))
          = (0 <? User.minutes_remaining user + minutes_change)) as ->.
  { destruct (Z.ltb_spec 0 (User.minutes_remaining user + minutes_change));
      destruct (Z.ltb_spec 0 (Z.max 0 (User.minutes_remaining user
                                        + minutes_change))); lia. }
  destruct (0 <? _); reflexivity.
Qed.

Lemma developer_access_follows_balance_witness :
  let ann := User.mk "u1" "ann" "ann@example.com" "h1" "user" true 1 in
  let users_db' :=
    fst (UserManagement.update_user_minutes "u1" (-1) {[ "u1" := ann ]}) in
  Gateway.check_developer_access "u1" NoFault users_db'
  = (users_db',
     raise (mkExc 403 "Forbidden: Only paid users have developer API access.")).
Proof.
  intros ann.
  exact (developer_access_follows_balance {[ "u1" := ann ]} "u1" (-1) ann
           (lookup_singleton_eq _ _)).
Defined.

(** ** Orchestrator: the output path of a job *)

Section Outputs.
Import Orchestrator.

(** One segment of a task keeps [output_ok] for its job. *)
Lemma segment_output (t : Task) (reply : Outcome AudioProcessResponse.t)
    (f : Fault) (w : World) (job : AudioJob.t) :
  jobs_db w !! task_job_id t = Some job →
  pc_status_ok (task_pc t) (AudioJob.status job) →
  output_ok (task_job_id t) job (task_pc t) →
  ∃ job',
    jobs_db (fst (segment t reply f w)) !! task_job_id t = Some job'
    ∧ output_ok (task_job_id t) job' (snd (segment t reply f w)).
Proof.
  destruct t as [id req pc]. cbn [task_job_id task_pc task_req].
  intros Hjob Hpc Hout. unfold segment. cbn [task_job_id task_pc task_req].
  assert (∀ pc0, pc0 ≠ AwaitNotify → pc0 ≠ Finished → pc = pc0 →
                 AudioJob.output_audio_path job = None) as Hnone.
  { intros pc0 H1 H2 ->. destruct (AudioJob.output_audio_path job) as [p|] eqn:E;
      [|reflexivity].
    destruct (Hout p E) as [[?|?] _]; contradiction. }
  assert (∀ w0 g,
            jobs_db w0 !! id = Some job →
            (∀ p, AudioJob.output_audio_path (g job) = Some p →
                  AudioJob.status (g job) = "completed"
                  ∧ p = "/app/data/output_" +:+ id +:+ ".wav") →
            ∃ job',
              jobs_db (notify id req (update_job id g w0)) !! id = Some job'
              ∧ output_ok id job' AwaitNotify) as Hfinally.
  { intros w0 g Hj0 Hg.
    destruct (update_then_notify id req g w0 job Hj0) as (n & -> & _).
    exists (g job). split; [apply lookup_insert_eq|].
    intros p Hp. destruct (Hg p Hp) as [Hs Hpath]. auto. }
  destruct pc as [| |out| |].
  - (* AtStart *)
    specialize (Hnone AtStart ltac:(discriminate) ltac:(discriminate) eq_refl).
    unfold segment_start. rewrite Hjob.
    destruct (negb _); cbn [fst snd]; unfold fail_job;
      rewrite (update_job_present id _ w job Hjob); cbn [jobs_db emit];
      eexists; (split; [apply lookup_insert_eq|]); intros p Hp; cbn in Hp;
      congruence.
  - (* AwaitWorker *)
    specialize (Hnone AwaitWorker ltac:(discriminate) ltac:(discriminate)
                      eq_refl).
    unfold segment_worker, fail_job.
    destruct reply as [[worker_output|code text]|e].
    + destruct (bool_decide _).
      * destruct (Py.truthy_opt _); cbn [fst snd].
        -- rewrite (update_job_present id _ w job Hjob). cbn [jobs_db emit].
           eexists. split; [apply lookup_insert_eq|].
           intros p Hp. cbn in Hp. congruence.
        -- apply Hfinally; [exact Hjob|]. intros p Hp. cbn in Hp. congruence.
      * cbn [fst snd]. apply Hfinally; [exact Hjob|].
        intros p Hp. cbn in Hp. congruence.
    + cbn [fst snd]. apply Hfinally; [exact Hjob|].
      intros p Hp. cbn in Hp. congruence.
    + cbn [fst snd]. apply Hfinally; [exact Hjob|].
      intros p Hp. cbn in Hp. congruence.
  - (* AwaitStore *)
    specialize (Hnone (AwaitStore out) ltac:(discriminate) ltac:(discriminate)
                      eq_refl).
    unfold segment_store, fail_job.
    destruct (call f _ (storage w)) as [fs1 o] eqn:Hcall.
    destruct o as [[body|code text]|e]; cbn [fst snd].
    + apply call_returned in Hcall as [_ Hup].
      apply upload_audio_ok in Hup as (bytes & _ & _ & Hpath); [|reflexivity].
      apply Hfinally; [exact Hjob|]. intros p Hp. cbn in Hp.
      injection Hp as <-. split; [|exact Hpath].
      exact Hpc.
    + apply Hfinally; [exact Hjob|]. intros p Hp. cbn in Hp. congruence.
    + apply Hfinally; [exact Hjob|]. intros p Hp. cbn in Hp. congruence.
  - (* AwaitNotify *)
    cbn [fst snd]. exists job. split; [exact Hjob|].
    intros p Hp. destruct (Hout p Hp) as (_ & Hs & Hpath). auto.
  - (* Finished *)
    cbn [fst snd]. exists job. split; [exact Hjob|]. exact Hout.
Qed.

Lemma process_audio_shape (req : AudioProcessRequest.t) (job_id : string)
    (f : Fault) (token : Decoded) (w : World) :
  let w' := fst (process_audio req job_id f token w) in
  (jobs_db w' = jobs_db w ∧ background_tasks w' = background_tasks w)
  ∨ ∃ job,
      jobs_db w' = <[job_id := job]> (jobs_db w)
      ∧ background_tasks w'
          = background_tasks w ++ [mkTask job_id req AtStart]
      ∧ AudioJob.output_audio_path job = None.
Proof.
  unfold process_audio.
  destruct (get_current_user_orchestrator token); [left; split; reflexivity|].
  destruct (Py.truthy_opt _).
  - unfold upload.
    match goal with
    | |- context [request ?ev ?proj ?inj f ?h w] =>
        destruct (request_frame ev proj inj f h w with_storage_frame)
          as (Hj & Ht & _);
        destruct (request ev proj inj f h w) as [w1 r]
    end.
    cbn [fst] in Hj, Ht.
    destruct r as [[code text|e|e]|store_resp]; cbn [fst];
      [left; split; assumption..|].
    right. eexists. unfold accept. cbn. rewrite Hj, Ht.
    split; [reflexivity|]. split; reflexivity.
  - right. eexists. unfold accept. cbn.
    split; [reflexivity|]. split; reflexivity.
Qed.

Lemma outputs_step (w w' : World) :
  consistent w → outputs_ok w → step w w' → outputs_ok w'.
Proof.
  intros Hc Hok [o Hen].
  destruct o as [req job_id f token|i reply f|j u tk|j u f tk];
    cbn [run enabled] in *.
  - destruct (process_audio_shape req job_id f token w)
      as [[Hj Ht]|(job & Hj & Ht & Hnone)];
      intros i t job0 Hi Hjob0; rewrite ?Hj, ?Ht in *.
    + exact (Hok i t job0 Hi Hjob0).
    + apply lookup_app_Some in Hi as [Hi|[_ Hi]].
      * destruct (task_job w Hc i t Hi) as (job1 & Hjob1 & _).
        rewrite lookup_insert_ne in Hjob0 by congruence.
        exact (Hok i t job0 Hi Hjob0).
      * apply list_lookup_singleton_Some in Hi as [_ <-].
        cbn [task_job_id task_pc] in *. rewrite lookup_insert_eq in Hjob0.
        injection Hjob0 as <-. intros p Hp. congruence.
  - unfold resume. destruct (background_tasks w !! i) as [t|] eqn:Hi;
      [|exact Hok].
    destruct (task_job w Hc i t Hi) as (job & Hjob & Hpc & _).
    destruct (segment_output t reply f w job Hjob Hpc (Hok i t job Hi Hjob))
      as (job'' & Hjob'' & Hout'').
    destruct (segment_spec t reply f w job Hjob Hpc)
      as (job' & evs & fs' & pc' & Hseg & _).
    rewrite Hseg in *. cbn [fst snd jobs_db] in Hjob'', Hout''.
    rewrite lookup_insert_eq in Hjob''. injection Hjob'' as <-.
    unfold with_tasks. intros i0 t0 job0.
    cbn [jobs_db storage users_db background_tasks log].
    intros Hi0 Hjob0. destruct (decide (i0 = i)) as [->|Hne].
    + rewrite list_lookup_insert_eq in Hi0
        by (apply lookup_lt_Some in Hi; exact Hi).
      injection Hi0 as <-. cbn [task_job_id task_pc] in *.
      rewrite lookup_insert_eq in Hjob0. injection Hjob0 as <-. exact Hout''.
    + rewrite list_lookup_insert_ne in Hi0 by congruence.
      assert (task_job_id t0 ≠ task_job_id t) as Hid.
      { intros Heq. apply Hne. exact (task_unique w Hc i0 i t0 t Hi0 Hi Heq). }
      rewrite lookup_insert_ne in Hjob0 by congruence.
      exact (Hok i0 t0 job0 Hi0 Hjob0).
  - rewrite get_job_status_pure. exact Hok.
  - destruct (download_audio_frame j u f tk w) as (Hj & Ht & _).
    intros i t job0. rewrite Hj, Ht. apply Hok.
Qed.

Lemma reachable_outputs_ok (w : World) : reachable w → outputs_ok w.
Proof.
  induction 1 as [fs users|w w' Hreach IH Hstep].
  - intros i t job Hi. cbn in Hi. rewrite lookup_nil in Hi. discriminate.
  - exact (outputs_step w w' (reachable_consistent w Hreach) IH Hstep).
Qed.

Lemma reachable_run (o : Op) (w : World) :
  reachable w → enabled o w → reachable (run o w).
Proof.
  intros Hreach Hen. apply (reachable_step w); [exact Hreach|].
  apply step_run, Hen.
Qed.

End Outputs.

(** The output path implies completion.  In every reachable world a job with
    an output path is "completed", and the path is the one the storage
    service gave to the output of that job, [/app/data/output_<job_id>.wav]:
    the path is set only on success and a job with output never fails
    afterwards. *)
Theorem output_path_only_when_completed (w : Orchestrator.World)
    (job_id p : string) (job : AudioJob.t) :
  Orchestrator.reachable w →
  Orchestrator.jobs_db w !! job_id = Some job →
  AudioJob.output_audio_path job = Some p →
  AudioJob.status job = "completed"
  ∧ p = "/app/data/output_" +:+ job_id +:+ ".wav".
Proof.
  intros Hreach Hjob Hp.
  destruct (Orchestrator.job_task w (reachable_consistent w Hreach) job_id job
              Hjob) as (i & t & Hi & <-).
  destruct (reachable_outputs_ok w Hreach i t job Hi Hjob p Hp)
    as (_ & Hs & Hpath).
  split; assumption.
Qed.

Section ScenarioFacts.
Import Orchestrator Scenario.

Lemma scenario_reachable :
  reachable w1 ∧ reachable w2 ∧ reachable w3 ∧ reachable w4 ∧ reachable w5.
Proof.
  assert (reachable w1) as H1.
  { apply reachable_run; [apply reachable_initial | reflexivity]. }
  assert (reachable w2) as H2 by (apply reachable_run; [exact H1 | exact I]).
  assert (reachable w3) as H3 by (apply reachable_run; [exact H2 | exact I]).
  assert (reachable w4) as H4 by (apply reachable_run; [exact H3 | exact I]).
  assert (reachable w5) as H5 by (apply reachable_run; [exact H4 | exact I]).
  auto.
Qed.

Lemma scenario_run : rtc step w1 w5.
Proof.
  apply (rtc_l _ _ w2); [apply (step_run w1 (Resume 0 reply NoFault)), I|].
  apply (rtc_l _ _ w3); [apply (step_run w2 (Resume 0 reply NoFault)), I|].
  apply (rtc_l _ _ w4); [apply (step_run w3 (Resume 0 reply NoFault)), I|].
  apply (rtc_l _ _ w5); [apply (step_run w4 (Resume 0 reply NoFault)), I|].
  apply rtc_refl.
Qed.

End ScenarioFacts.

Lemma output_path_only_when_completed_witness :
  ∃ job,
    Orchestrator.jobs_db Scenario.w5 !! "j1" = Some job
    ∧ AudioJob.status job = "completed"
    ∧ AudioJob.output_audio_path job = Some "/app/data/output_j1.wav".
Proof.
  destruct (Orchestrator.jobs_db Scenario.w5 !! "j1") as [job|] eqn:Hjob;
    [|vm_compute in Hjob; discriminate].
  destruct (AudioJob.output_audio_path job) as [p|] eqn:Hp;
    [|vm_compute in Hjob; injection Hjob as <-; vm_compute in Hp; discriminate].
  destruct (output_path_only_when_completed Scenario.w5 "j1" p job
              (proj2 (proj2 (proj2 (proj2 scenario_reachable)))) Hjob Hp)
    as [Hs ->].
  exists job. split; [reflexivity|]. split; [exact Hs | exact Hp].
Defined.

Lemma status_never_goes_back_witness :
  ∃ job',
    Orchestrator.jobs_db Scenario.w5 !! "j1" = Some job'
    ∧ (Orchestrator.status_rank "pending"
         ≤ Orchestrator.status_rank (AudioJob.status job'))%nat
    ∧ AudioJob.user_id job' = "alice".
Proof.
  destruct (status_never_goes_back Scenario.w1 Scenario.w5 "j1"
              (AudioJob.mk "j1" "alice" None None "tts" "m" "pending" ∅)
              (proj1 scenario_reachable) scenario_run eq_refl)
    as (job' & Hjob' & Hrank & _ & Huid).
  exists job'. split; [exact Hjob'|]. split; [exact Hrank | exact Huid].
Defined.

Lemma polls_never_go_back_witness :
  ∃ second,
    snd (Orchestrator.get_job_status "j1" "alice" Scenario.token Scenario.w5)
      = inr second
    ∧ (Orchestrator.status_rank "pending"
         ≤ Orchestrator.status_rank (Orchestrator.st_status second))%nat.
Proof.
  destruct (polls_never_go_back Scenario.w1 Scenario.w5 "j1" "alice"
              Scenario.token
              (Orchestrator.mkStatusBody "j1" "pending" false None None)
              (proj1 scenario_reachable) scenario_run eq_refl)
    as (second & Hsecond & Hrank & _).
  exists second. split; [exact Hsecond | exact Hrank].
Defined.

Lemma notifications_of_ended_task_witness :
  ∃ job n,
    Orchestrator.jobs_db Scenario.w5 !! "j1" = Some job
    ∧ Orchestrator.notifications "j1" (Orchestrator.log Scenario.w5) = [n]
    ∧ Notification.notification_type n
        = Orchestrator.kind_of (AudioJob.status job).
Proof.
  destruct (notifications_of_ended_task Scenario.w5 0
              (Orchestrator.mkTask "j1" Scenario.req Orchestrator.Finished)
              (proj2 (proj2 (proj2 (proj2 scenario_reachable)))) eq_refl eq_refl)
    as (job & Hjob & _ & Hone & _).
  destruct Hone as (n & Hn & Hkind); [reflexivity|].
  exists job, n. split; [exact Hjob|]. split; [exact Hn | exact Hkind].
Defined.

(** ** Orchestrator: submissions and downloads *)

(** An accepted submission can be polled at once.  When [process_audio]
    accepts a request, the job id of its answer is the generated id, and a
    status query for that id and the user of the request, by that user or an
    admin, answers "pending" without output; the output text and the error
    message it reports are the entries of those names in the parameters of
    the request, if any. *)
Theorem submit_then_poll (req : AudioProcessRequest.t) (job_id : string)
    (f : Fault) (token : Orchestrator.Decoded) (caller : Orchestrator.Claims)
    (w w1 : Orchestrator.World) (body : Orchestrator.SubmitBody) :
  Orchestrator.process_audio req job_id f token w = (w1, inr body) →
  Orchestrator.sub caller = Some (AudioProcessRequest.user_id req)
    ∨ Orchestrator.role caller = Some "admin" →
  Orchestrator.sub_job_id body = job_id
  ∧ Orchestrator.get_job_status job_id (AudioProcessRequest.user_id req)
      (Orchestrator.DecodedClaims caller) w1
    = (w1, inr (Orchestrator.mkStatusBody job_id "pending" false
                  (default ∅ (AudioProcessRequest.parameters req)
                     !! "output_text")
                  (default ∅ (AudioProcessRequest.parameters req) !! "error"))).
Proof.
  intros Hsub Hvis.
  assert (∀ job w0,
            AudioJob.job_id job = job_id →
            AudioJob.user_id job = AudioProcessRequest.user_id req →
            AudioJob.status job = "pending" →
            AudioJob.metadata job
              = default ∅ (AudioProcessRequest.parameters req) →
            Orchestrator.accept job_id req job w0 = (w1, inr body) →
            Orchestrator.sub_job_id body = job_id
            ∧ Orchestrator.get_job_status job_id
                (AudioProcessRequest.user_id req)
                (Orchestrator.DecodedClaims caller) w1
              = (w1, inr (Orchestrator.mkStatusBody job_id "pending" false
                            (default ∅ (AudioProcessRequest.parameters req)
                               !! "output_text")
                            (default ∅ (AudioProcessRequest.parameters req)
                               !! "error")))) as Haccept.
  { intros job w0 Hid Huid Hst Hmeta. unfold Orchestrator.accept.
    intros [= <- <-]. split; [reflexivity|].
    unfold Orchestrator.get_job_status.
    cbn [Orchestrator.get_current_user_orchestrator].
    rewrite (not_visible_false _ _ Hvis).
    rewrite (find_job_owned job_id _ _ job); [|apply lookup_insert_eq|exact Huid].
    rewrite Hid, Hst, Hmeta. reflexivity. }
  revert Hsub. unfold Orchestrator.process_audio.
  destruct (Orchestrator.get_current_user_orchestrator token); [discriminate|].
  destruct (Py.truthy_opt _).
  - destruct (Orchestrator.upload _ _ _ f w) as [w0 [[code text|e|e]|store_resp]];
      try discriminate.
    apply Haccept; reflexivity.
  - apply Haccept; reflexivity.
Qed.

Lemma submit_then_poll_witness :
  Orchestrator.get_job_status "j1" "alice" Scenario.token Scenario.w1
  = (Scenario.w1,
     inr (Orchestrator.mkStatusBody "j1" "pending" false None None)).
Proof.
  destruct (submit_then_poll Scenario.req "j1" NoFault Scenario.token
              (Orchestrator.mkClaims (Some "alice") (Some "user"))
              Scenario.w0 Scenario.w1
              (Orchestrator.mkSubmit "j1"
                 "Job accepted, processing in background."))
    as [_ Hpoll].
  - reflexivity.
  - left. reflexivity.
  - exact Hpoll.
Defined.



Section PaidDownload.
Import Orchestrator.

Variables (job_id user_id p : string) (c : Claims) (w : World)
  (job : AudioJob.t) (user : User.t).

Hypothesis Hvisible : sub c = Some user_id ∨ role c = Some "admin".
Hypothesis Hjob : jobs_db w !! job_id = Some job.
Hypothesis Howner : AudioJob.user_id job = user_id.
Hypothesis Hcompleted : AudioJob.status job = "completed".
Hypothesis Hpath : AudioJob.output_audio_path job = Some p.
Hypothesis Hnonempty : p ≠ "".
Hypothesis Huser : users_db w !! user_id = Some user.
Hypothesis Hpaid : User.paid_status user = true.
Hypothesis Hminutes : 0 < User.minutes_remaining user.

(** The user after the debit of one minute. *)
Local Abbreviation debited :=
  (User.mk (User.id user) (User.username user) (User.email user)
           (User.password user) (User.role user)
           (0 <? User.minutes_remaining user - 1)
           (User.minutes_remaining user - 1)).


End PaidDownload.




